(** * Mail-stack conformance scripts: a shallow embedding

    The repository is a set of Python scripts that drive an SMTP and an IMAP
    server over raw sockets (or through [smtplib]) and inspect a maildir on
    disk.  Each script is embedded as a program of a small state-and-error
    monad over a process state that records, in order, everything the script
    does to the outside world (prints, socket operations, sleeps).

    Bytes and text are both held as [string], a sequence of 8-bit
    characters: a Python [str] is held as its UTF-8 encoding, and
    [bytes.decode()] is the test that the bytes are well-formed UTF-8.
    Substring tests, [count], [split] and [startswith] give the same
    answers on the encoding as on the characters; what works on characters
    ([s[:n]], [strip], [lower], the [\d] of a regular expression) goes
    through [chars]. *)

From Stdlib Require Import String Ascii List Bool Arith NArith ZArith Lia DecimalString.
Set Warnings "-abstract-large-number".
Import ListNotations.
Open Scope string_scope.

(* ================================================================= *)
(** ** Python string operations used by the scripts *)

Module PyStr.

(** [s.startswith(p)] *)
Definition startswith (p s : string) : bool := String.prefix p s.

(** [needle in s] *)
Fixpoint contains (needle s : string) : bool :=
  startswith needle s ||
  match s with
  | EmptyString => false
  | String _ s' => contains needle s'
  end.

(** [s[:n]] and [s[n:]] *)
Fixpoint take (n : nat) (s : string) : string :=
  match n, s with
  | S n', String c s' => String c (take n' s')
  | _, _ => EmptyString
  end.

Fixpoint drop (n : nat) (s : string) : string :=
  match n, s with
  | S n', String _ s' => drop n' s'
  | _, _ => s
  end.

(** [s.count(sub)]: occurrences found scanning left to right, the scan
    resuming after the end of each occurrence ([skip] characters are passed
    over without being examined). *)
Fixpoint count_from (sub s : string) (skip : nat) : nat :=
  match s with
  | EmptyString =>
      match skip with
      | O => if startswith sub EmptyString then 1 else 0
      | S _ => 0
      end
  | String _ s' =>
      match skip with
      | S k => count_from sub s' k
      | O => if startswith sub s
             then S (count_from sub s' (String.length sub - 1))
             else count_from sub s' 0
      end
  end.

Definition count (sub s : string) : nat := count_from sub s 0.

(** [s.split(sep)] for a one-character separator *)
Fixpoint split (sep : ascii) (s : string) : list string :=
  match s with
  | EmptyString => [EmptyString]
  | String c s' =>
      if Ascii.eqb c sep then EmptyString :: split sep s'
      else match split sep s' with
           | [] => [String c EmptyString]
           | l :: ls => String c l :: ls
           end
  end.

(** [s * n] *)
Fixpoint repeat (s : string) (n : nat) : string :=
  match n with
  | O => EmptyString
  | S n' => s ++ repeat s n'
  end.

(** *** Text as UTF-8 *)

Definition byte_in (lo hi : nat) (c : ascii) : bool :=
  let n := nat_of_ascii c in ((lo <=? n) && (n <=? hi))%nat.

(** A continuation byte. *)
Definition is_cont (c : ascii) : bool := byte_in 128 191 c.

(** The first two bytes of a three-byte and of a four-byte character: no
    overlong form, no surrogate, nothing beyond U+10FFFF. *)
Definition three_start (a b : ascii) : bool :=
  (byte_in 224 224 a && byte_in 160 191 b) || (byte_in 225 236 a && is_cont b)
  || (byte_in 237 237 a && byte_in 128 159 b) || (byte_in 238 239 a && is_cont b).

Definition four_start (a b : ascii) : bool :=
  (byte_in 240 240 a && byte_in 144 191 b) || (byte_in 241 243 a && is_cont b)
  || (byte_in 244 244 a && byte_in 128 143 b).

(** [bytes.decode()] succeeds: the bytes are well-formed UTF-8. *)
Fixpoint utf8 (s : string) : bool :=
  match s with
  | EmptyString => true
  | String a s1 =>
      if byte_in 0 127 a then utf8 s1
      else
        match s1 with
        | EmptyString => false
        | String b s2 =>
            if byte_in 194 223 a then is_cont b && utf8 s2
            else
              match s2 with
              | EmptyString => false
              | String c s3 =>
                  if three_start a b then is_cont c && utf8 s3
                  else
                    match s3 with
                    | EmptyString => false
                    | String d s4 =>
                        four_start a b && is_cont c && is_cont d && utf8 s4
                    end
              end
        end
  end.

(** The characters of a text, each as its bytes: a byte that is followed by
    a continuation byte belongs to the same character as that byte. *)
Fixpoint chars (s : string) : list string :=
  match s with
  | EmptyString => []
  | String a s' =>
      match s' with
      | EmptyString => [String a EmptyString]
      | String b _ =>
          if is_cont b then
            match chars s' with
            | g :: gs => String a g :: gs
            | [] => [String a EmptyString]
            end
          else String a EmptyString :: chars s'
      end
  end.

Definition unchars (cs : list string) : string := String.concat EmptyString cs.

(** [s[:n]]: the first [n] characters. *)
Definition take_chars (n : nat) (s : string) : string := unchars (firstn n (chars s)).

Fixpoint of_bytes (l : list nat) : string :=
  match l with
  | [] => EmptyString
  | n :: l' => String (ascii_of_nat n) (of_bytes l')
  end.

(** The characters [str.isspace] holds of: U+0009 to U+000D, U+001C to
    U+0020, U+0085, U+00A0, U+1680, U+2000 to U+200A, U+2028, U+2029,
    U+202F, U+205F and U+3000. *)
Definition space_chars : list string :=
  map of_bytes
    [[9]; [10]; [11]; [12]; [13]; [28]; [29]; [30]; [31]; [32];
     [194; 133]; [194; 160]; [225; 154; 128];
     [226; 128; 128]; [226; 128; 129]; [226; 128; 130]; [226; 128; 131];
     [226; 128; 132]; [226; 128; 133]; [226; 128; 134]; [226; 128; 135];
     [226; 128; 136]; [226; 128; 137]; [226; 128; 138];
     [226; 128; 168]; [226; 128; 169]; [226; 128; 175]; [226; 129; 159];
     [227; 128; 128]].

Definition is_space (c : string) : bool := existsb (String.eqb c) space_chars.

Fixpoint drop_spaces (cs : list string) : list string :=
  match cs with
  | c :: cs' => if is_space c then drop_spaces cs' else cs
  | [] => []
  end.

(** [s.strip()]: white space removed at both ends. *)
Definition strip (s : string) : string :=
  unchars (rev (drop_spaces (rev (drop_spaces (chars s))))).

(** The lower-case form of a character, as far as ASCII goes: A to Z give a
    to z, KELVIN SIGN (U+212A) gives k, and U+0130 gives i followed by
    U+0307.  The lower-case form of every other character holds no ASCII
    character; such a character is left as it is, which no search for an
    ASCII text can tell from its lower-case form. *)
Definition lower_char (c : string) : string :=
  match c with
  | String a EmptyString =>
      if byte_in 65 90 a then String (ascii_of_nat (nat_of_ascii a + 32)) EmptyString
      else c
  | _ =>
      if String.eqb c (of_bytes [226; 132; 170]) then of_bytes [107]
      else if String.eqb c (of_bytes [196; 176]) then of_bytes [105; 204; 135]
      else c
  end.

(** [s.lower()], for the searches the scripts make in it. *)
Definition lower (s : string) : string := unchars (map lower_char (chars s)).

(** [str(n)], and the number a run of the digits 0 to 9 denotes *)
Definition str_of_N (n : N) : string := NilZero.string_of_uint (N.to_uint n).

Definition is_digit (c : ascii) : bool :=
  let n := nat_of_ascii c in ((48 <=? n) && (n <=? 57))%nat.

Definition digit_val (c : ascii) : N := N.of_nat (nat_of_ascii c - 48).

Fixpoint int_of_digits_from (acc : N) (s : string) : N :=
  match s with
  | EmptyString => acc
  | String c s' => int_of_digits_from (10 * acc + digit_val c) s'
  end.

Definition int_of_digits (s : string) : N := int_of_digits_from 0 s.

(** [os.path.basename(p)] *)
Definition basename (p : string) : string := last (split "/" p) EmptyString.

End PyStr.

(* ================================================================= *)
(** ** The process: outside world, trace and monad *)

(** The calls the SPF/DKIM script makes into [smtplib]. *)
Inductive smtp_call : Type :=
| SMTP_open     (* smtplib.SMTP('localhost', 2525): the connection is made *)
| SMTP_greeting (* the same call: the server's greeting is read *)
| SMTP_ehlo
| SMTP_mail
| SMTP_rcpt
| SMTP_data
| SMTP_quit.    (* the QUIT that leaving the with-block sends *)

(** What a script does, in program order. *)
Inductive event : Type :=
| EvPrint (line : string)                  (* print(...) *)
| EvConnect (host : string) (port : nat)   (* sock.connect((host, port)) *)
| EvSend (data : string)                   (* sock.sendall(data) *)
| EvSleep (ms : nat)                       (* time.sleep(ms / 1000) *)
| EvRecv (bufsize : nat) (data : string)   (* sock.recv(bufsize).decode(), with its result *)
| EvUndecoded (bufsize : nat) (bytes : string)
                                           (* sock.recv(bufsize) whose bytes decode() refused *)
| EvBlocked (bufsize : nat)                (* sock.recv(bufsize) with nothing to read *)
| EvClose                                  (* sock.close() *)
| EvSmtp (c : smtp_call)                   (* a call into smtplib *)
| EvSmtpClose                              (* SMTP.close(), from SMTP.__exit__ *)
| EvTraceback.                             (* traceback.print_exc() *)

(** How the peer reacts to one [sendall]: it answers with some bytes, or the
    connection is gone and the call raises. *)
Inductive reaction : Type :=
| Reply (bytes : string)
| Drop.

(** A directory entry; [text] is [None] when opening or decoding it fails.
    [ctime] is [os.path.getctime], a totally ordered time stamp. *)
Record entry : Type := mkEntry {
  name  : string;
  ctime : N;
  text  : option string
}.

Inductive node : Type :=
| Absent
| NotDir
| Dir (entries : list entry).   (* in the order the directory is listed *)

(** What the scripts use of the Python interpreter beyond ASCII: the value
    of a character as a decimal digit in its Unicode table ([None] when the
    character is no decimal digit; consulted for characters of more than one
    byte only), and the longest run of digits [int()] converts
    ([sys.get_int_max_str_digits()], 0 when there is no limit). *)
Record interpreter : Type := mkInterpreter {
  decimal        : string -> option N;
  max_str_digits : nat
}.

(** The outside world of one run. *)
Record world : Type := mkWorld {
  accepts  : bool;                          (* does the peer accept the connection *)
  greeting : string;                        (* what it sends first *)
  smtp     : smtp_call -> option string;    (* [Some msg]: the call raises, str(e) = msg *)
  fs       : string -> node;                (* the file system, by path *)
  python   : interpreter
}.

Inductive exn : Type :=
| ConnectionRefusedError
| BrokenPipeError
| UnicodeDecodeError
| ValueError
| SMTPException (msg : string)
| ReadError.

(** The process state.  [inbuf] holds the bytes the peer has sent and the
    script has not read yet; [reactions] is the peer's behaviour for the
    successive [sendall] calls (a peer that has run out of reactions keeps
    the connection and sends nothing); [trace] is what the script has done
    so far. *)
Record proc : Type := mkProc {
  env       : world;
  inbuf     : string;
  reactions : list reaction;
  trace     : list event
}.

Definition boot (w : world) (rs : list reaction) : proc :=
  mkProc w EmptyString rs [].

(** How a statement ends: with a value, with an exception, or not at all
    (the process is blocked in a call that never returns). *)
Inductive res (A : Type) : Type :=
| Val (a : A)
| Err (e : exn)
| Hang.
Arguments Val {A} a.
Arguments Err {A} e.
Arguments Hang {A}.

Definition M (A : Type) : Type := proc -> res A * proc.

Definition ret {A} (a : A) : M A := fun p => (Val a, p).

Definition bind {A B} (m : M A) (k : A -> M B) : M B :=
  fun p => match m p with
           | (Val a, p') => k a p'
           | (Err e, p') => (Err e, p')
           | (Hang, p') => (Hang, p')
           end.

Definition raise {A} (e : exn) : M A := fun p => (Err e, p).

(** [try: m except Exception as e: h e] *)
Definition try_except {A} (m : M A) (h : exn -> M A) : M A :=
  fun p => match m p with
           | (Val a, p') => (Val a, p')
           | (Err e, p') => h e p'
           | (Hang, p') => (Hang, p')
           end.

Notation "x <- m ;; k" := (bind m (fun x => k))
  (at level 61, m at next level, right associativity).
Notation "m ;; k" := (bind m (fun _ => k))
  (at level 61, right associativity).

Definition log (e : event) : M unit :=
  fun p => (Val tt, mkProc (env p) (inbuf p) (reactions p) (trace p ++ [e])).

Definition print (line : string) : M unit := log (EvPrint line).

Definition sleep (ms : nat) : M unit := log (EvSleep ms).

(** [sock.connect]: refused, or established with the greeting on its way. *)
Definition connect (host : string) (port : nat) : M unit :=
  fun p =>
    if accepts (env p)
    then (Val tt, mkProc (env p) (inbuf p ++ greeting (env p)) (reactions p)
                         (trace p ++ [EvConnect host port]))
    else (Err ConnectionRefusedError, p).

(** [sock.sendall(data)] *)
Definition sendall (data : string) : M unit :=
  fun p =>
    match reactions p with
    | [] => (Val tt, mkProc (env p) (inbuf p) [] (trace p ++ [EvSend data]))
    | Reply bytes :: rs =>
        (Val tt, mkProc (env p) (inbuf p ++ bytes) rs (trace p ++ [EvSend data]))
    | Drop :: rs =>
        (Err BrokenPipeError, mkProc (env p) (inbuf p) rs (trace p))
    end.

(** [sock.recv(bufsize).decode()] on a blocking socket.  While nothing has
    arrived the call does not return.  Otherwise it is one read, of at most
    [bufsize] of the bytes that are waiting; the rest stays in the buffer;
    the bytes read are decoded, and [decode] raises when they are not
    well-formed UTF-8, as when the read ends inside a character. *)
Definition recv (bufsize : nat) : M string :=
  fun p =>
    match inbuf p with
    | EmptyString =>
        (Hang, mkProc (env p) (inbuf p) (reactions p) (trace p ++ [EvBlocked bufsize]))
    | _ =>
        let data := PyStr.take bufsize (inbuf p) in
        if PyStr.utf8 data
        then (Val data, mkProc (env p) (PyStr.drop bufsize (inbuf p)) (reactions p)
                               (trace p ++ [EvRecv bufsize data]))
        else (Err UnicodeDecodeError,
              mkProc (env p) (PyStr.drop bufsize (inbuf p)) (reactions p)
                     (trace p ++ [EvUndecoded bufsize data]))
    end.

Definition close : M unit := log EvClose.

(** The exit status of a script run as [python3 script.py] whose last
    statement is a plain call: 0 when the module body runs to its end, 1 when
    an exception escapes it, none while the process is blocked. *)
Definition exit_status {A} (r : res A * proc) : option nat :=
  match fst r with
  | Val _ => Some 0
  | Err _ => Some 1
  | Hang => None
  end.

(** Observations on a trace. *)
Definition sent_lines (t : list event) : list string :=
  flat_map (fun e => match e with EvSend d => [d] | _ => [] end) t.

Definition printed (t : list event) : list string :=
  flat_map (fun e => match e with EvPrint l => [l] | _ => [] end) t.

Definition reads (t : list event) : list (nat * string) :=
  flat_map (fun e => match e with EvRecv n d => [(n, d)] | _ => [] end) t.


Definition opened (t : list event) : bool :=
  existsb (fun e => match e with EvConnect _ _ | EvSmtp SMTP_open => true | _ => false end) t.

Definition closed (t : list event) : bool :=
  existsb (fun e => match e with EvClose | EvSmtpClose => true | _ => false end) t.

Definition nl : string := String (ascii_of_nat 10) EmptyString.
Definition crlf : string := String (ascii_of_nat 13) nl.
Definition dquote : string := String (ascii_of_nat 34) EmptyString.

(** A run of a script against a peer. *)
Definition run {A} (script : M A) (w : world) (rs : list reaction) : res A * proc :=
  script (boot w rs).

(* ================================================================= *)
(** ** test-imap-full.py *)

Module TestImapFull.
Import PyStr.

Definition send_command (command : string) : M string :=
  print ("→ " ++ command);;
  sendall (command ++ crlf);;
  sleep 300;;
  response <- recv 8192;;
  print ("← " ++ response);;
  ret response.

(** The fact the script derives from a response: ["OK" in response]. *)
Definition statusOk (response : string) : bool := contains "OK" response.

Definition test_complete_flow : M unit :=
  print ("=== Testing Complete IMAP Flow ===" ++ nl);;
  connect "localhost" 1993;;
  greeting <- recv 4096;;
  print ("← " ++ greeting);;
  print (nl ++ "1. LOGIN with valid credentials");;
  response <- send_command "A001 LOGIN test@example.com password123";;
  if negb (statusOk response) then
    print "❌ LOGIN failed!"
  else
  print ("✅ LOGIN successful!" ++ nl);;
  print "2. SELECT INBOX";;
  response <- send_command "A002 SELECT INBOX";;
  if negb (statusOk response) then
    print "❌ SELECT failed!"
  else
  print ("✅ SELECT successful!" ++ nl);;
  print "3. FETCH 1:* (BODY[])";;
  response <- send_command "A003 FETCH 1:* BODY[]";;
  if negb (statusOk response) then
    print "❌ FETCH failed!"
  else
  print ("✅ FETCH successful!" ++ nl);;
  print ("4. LIST " ++ dquote ++ dquote ++ " " ++ dquote ++ "*" ++ dquote);;
  response <- send_command ("A004 LIST " ++ dquote ++ dquote ++ " " ++ dquote ++ "*" ++ dquote);;
  print ("✅ LIST successful!" ++ nl);;
  print "5. LOGOUT";;
  send_command "A005 LOGOUT";;
  close;;
  print (nl ++ "=== All tests passed! 🎉 ===").

End TestImapFull.

(* ================================================================= *)
(** ** test-imap-e2e.py *)

Module TestImapE2e.
Import PyStr.

Definition send_command (command : string) : M string :=
  print ("→ " ++ command);;
  sendall (command ++ crlf);;
  sleep 300;;
  response <- recv 8192;;
  print ("← " ++ response);;
  ret response.

(** [\d]: the digits 0 to 9, and beyond ASCII the characters the
    interpreter's table gives a decimal value. *)
Definition is_decimal (py : interpreter) (c : string) : bool :=
  match c with
  | String a EmptyString => is_digit a
  | _ => match decimal py c with Some _ => true | None => false end
  end.

Definition digit_value (py : interpreter) (c : string) : N :=
  match c with
  | String a EmptyString => digit_val a
  | _ => match decimal py c with Some v => v | None => 0%N end
  end.

(** The longest run of decimal digits at the head of a list of characters. *)
Fixpoint decimals (py : interpreter) (cs : list string) : list string :=
  match cs with
  | c :: cs' => if is_decimal py c then c :: decimals py cs' else []
  | [] => []
  end.

(** [re.match] of [\* (\d+) EXISTS] at the head of [s]: the characters of
    group 1 when it matches.  The digits are taken greedily; giving one back
    can never help, since the next character of the pattern is a space. *)
Definition match_exists_here (py : interpreter) (s : string) : option (list string) :=
  if startswith "* " s then
    let ds := decimals py (chars (drop 2 s)) in
    match ds with
    | [] => None
    | _ :: _ =>
        if startswith " EXISTS" (drop (2 + String.length (unchars ds)) s)
        then Some ds else None
    end
  else None.

(** [re.search(r'\* (\d+) EXISTS', s)]: the leftmost match. *)
Fixpoint search_exists (py : interpreter) (s : string) : option (list string) :=
  match match_exists_here py s with
  | Some ds => Some ds
  | None => match s with
            | EmptyString => None
            | String _ s' => search_exists py s'
            end
  end.

Definition re_search_exists (s : string) : M (option (list string)) :=
  fun p => (Val (search_exists (python (env p)) s), p).

(** [int(match.group(1))]: the number the digits denote; a run of digits
    longer than the interpreter's limit raises [ValueError]. *)
Definition int_of_group (ds : list string) : M N :=
  fun p =>
    let py := python (env p) in
    if ((0 <? max_str_digits py) && (max_str_digits py <? List.length ds))%nat
    then (Err ValueError, p)
    else (Val (fold_left (fun acc c => (10 * acc + digit_value py c)%N) ds 0%N), p).

Definition test_imap_read : M unit :=
  print ("=== Testing IMAP Email Reading ===" ++ nl);;
  connect "localhost" 1993;;
  greeting <- recv 4096;;
  print ("← " ++ greeting);;
  print (nl ++ "1. Logging in...");;
  send_command "A001 LOGIN test@example.com password123";;
  print (nl ++ "2. Selecting INBOX...");;
  response <- send_command "A002 SELECT INBOX";;
  found <- re_search_exists response;;
  match found with
  | Some group1 =>
      count <- int_of_group group1;;
      print (nl ++ "✅ Found " ++ str_of_N count ++ " emails in INBOX");;
      print (nl ++ "3. Fetching email #" ++ str_of_N count ++ " (latest)...");;
      response <- send_command ("A003 FETCH " ++ str_of_N count ++ " BODY[]");;
      if contains "E2E Test Email" response then
        print (nl ++ "🎉 SUCCESS! The E2E test email is readable via IMAP!");;
        print (nl ++ "Email content preview:");;
        print (repeat "=" 50);;
        if contains "full stack is working" response then
          print "✅ E2E test message confirmed!"
        else ret tt
      else
        print (nl ++ "⚠️  Could not find E2E test email")
  | None => ret tt
  end;;
  print (nl ++ "4. Logging out...");;
  send_command "A004 LOGOUT";;
  close;;
  print (nl ++ "=== IMAP Test Complete ===").

End TestImapE2e.

(* ================================================================= *)
(** ** test-imap-all.py *)

Module TestImapAll.
Import PyStr.

Definition send_command (command : string) : M string :=
  print ("→ " ++ command);;
  sendall (command ++ crlf);;
  sleep 300;;
  response <- recv 16384;;
  ret response.

(** [email_count = response.count("* ") - 1]; Python integers are unbounded
    and signed, so the subtraction is that of [Z]. *)
Definition approximateMessageCount (response : string) : Z :=
  (Z.of_nat (count "* " response) - 1)%Z.

Definition str_of_Z (z : Z) : string :=
  NilZero.string_of_int (Z.to_int z).

Definition test_imap_all : M unit :=
  print ("=== Fetching All Emails via IMAP ===" ++ nl);;
  connect "localhost" 1993;;
  greeting <- recv 4096;;
  print ("← " ++ greeting);;
  print "1. Logging in...";;
  send_command "A001 LOGIN test@example.com password123";;
  print "2. Selecting INBOX...";;
  response <- send_command "A002 SELECT INBOX";;
  print ("← " ++ response);;
  print (nl ++ "3. Fetching ALL emails (1:*)...");;
  response <- send_command "A003 FETCH 1:* BODY[]";;
  (if contains "E2E Test Email" response && contains "full stack is working" response
   then
     print (nl ++ "🎉 SUCCESS! The E2E test email is readable via IMAP!");;
     print (nl ++ "✅ SMTP → Maildir → IMAP chain works perfectly!");;
     let email_count := approximateMessageCount response in
     print (nl ++ "📬 Total emails fetched: " ++ str_of_Z email_count)
   else
     print (nl ++ "⚠️  E2E test email not found in response");;
     print (nl ++ "Response preview:");;
     print (take_chars 500 response));;
  print (nl ++ "4. Logging out...");;
  send_command "A004 LOGOUT";;
  close;;
  print (nl ++ "=== Test Complete ===").

End TestImapAll.

(* ================================================================= *)
(** ** test-imap.py *)

Module TestImap.
Import PyStr.

Definition send_command (command : string) : M string :=
  print ("→ " ++ command);;
  sendall (command ++ crlf);;
  sleep 200;;
  response <- recv 4096;;
  print ("← " ++ response);;
  ret response.

Definition test_imap : M unit :=
  print ("=== Testing IMAP Server ===" ++ nl);;
  connect "localhost" 1993;;
  greeting <- recv 4096;;
  print ("← " ++ greeting);;
  print (nl ++ "1. Testing CAPABILITY");;
  send_command "A001 CAPABILITY";;
  print (nl ++ "2. Testing NOOP");;
  send_command "A002 NOOP";;
  print (nl ++ "3. Testing LOGIN (should fail)");;
  send_command "A003 LOGIN test@example.com wrongpass";;
  print (nl ++ "4. Testing LOGOUT");;
  send_command "A004 LOGOUT";;
  close;;
  print (nl ++ "=== Tests completed ===").

End TestImap.

(* ================================================================= *)
(** ** send-smtp-raw.py *)

Module SendSmtpRaw.
Import PyStr.

Definition send_command (command : string) : M string :=
  print ("→ " ++ command);;
  sendall (command ++ crlf);;
  sleep 200;;
  response <- recv 4096;;
  print ("← " ++ strip response);;
  ret response.

(** The Subject header value of the message; [timestamp] is
    [datetime.now().strftime("%Y-%m-%d %H:%M:%S")]. *)
Definition subject (timestamp : string) : string :=
  "E2E Test Email - " ++ timestamp.

(** The f-string [email_content]; [date] is the second [strftime] result. *)
Definition email_content (timestamp date : string) : string :=
  "From: sender@example.com" ++ nl ++
  "To: test@example.com" ++ nl ++
  "Subject: " ++ subject timestamp ++ nl ++
  "Date: " ++ date ++ nl ++
  nl ++
  "Hello!" ++ nl ++
  nl ++
  "This is an end-to-end test email sent via raw SMTP." ++ nl ++
  nl ++
  "If you can read this in the web-ui via the AI assistant, it means:" ++ nl ++
  "✅ SMTP reception works" ++ nl ++
  "✅ Maildir storage works" ++ nl ++
  "✅ IMAP reading works" ++ nl ++
  "✅ MCP integration works" ++ nl ++
  "✅ AI runtime works" ++ nl ++
  "✅ Web-UI works" ++ nl ++
  nl ++
  "Congratulations! The full stack is working! 🎉" ++ nl ++
  nl ++
  "Best regards," ++ nl ++
  "The GK Mail Test Suite" ++ nl ++
  "." ++ nl.

Definition send_email (timestamp date : string) : M unit :=
  print ("=== Sending Test Email via SMTP ===" ++ nl);;
  connect "localhost" 2525;;
  greeting <- recv 4096;;
  print ("← " ++ strip greeting);;
  send_command "EHLO test-client";;
  send_command "MAIL FROM:<sender@example.com>";;
  send_command "RCPT TO:<test@example.com>";;
  send_command "DATA";;
  print "→ [Email content]";;
  sendall (email_content timestamp date);;
  sleep 300;;
  response <- recv 4096;;
  print ("← " ++ strip response);;
  send_command "QUIT";;
  close;;
  print (nl ++ "✅ Email sent successfully!").

End SendSmtpRaw.

(* ================================================================= *)
(** ** test_spf_dkim.py *)

Module TestSpfDkim.
Import PyStr.

(** A call into [smtplib]: it succeeds and is recorded, or it raises. *)
Definition smtp_do (c : smtp_call) : M unit :=
  fun p => match smtp (env p) c with
           | None => log (EvSmtp c) p
           | Some msg => (Err (SMTPException msg), p)
           end.

(** [SMTP.__exit__]: QUIT, then [close()] in a [finally]. *)
Definition smtp_exit : M unit :=
  fun p => match smtp_do SMTP_quit p with
           | (r, p') => match log EvSmtpClose p' with
                        | (_, p'') => (r, p'')
                        end
           end.

(** [smtplib.SMTP('localhost', 2525)]: the connection is made, then the
    greeting is read; when that fails the library closes the socket before
    it raises. *)
Definition smtp_new : M unit :=
  smtp_do SMTP_open;;
  fun p => match smtp (env p) SMTP_greeting with
           | None => log (EvSmtp SMTP_greeting) p
           | Some msg => (Err (SMTPException msg), snd (log EvSmtpClose p))
           end.

(** [with smtplib.SMTP('localhost', 2525) as server: body]: when the
    constructor raises there is no session to leave; otherwise [__exit__]
    runs however the body ends, and an exception of the body survives unless
    [__exit__] raises one itself. *)
Definition with_SMTP {A} (body : M A) : M A :=
  smtp_new;;
  fun p => match body p with
           | (Val a, p') => match smtp_exit p' with
                            | (Val _, p'') => (Val a, p'')
                            | (Err e, p'') => (Err e, p'')
                            | (Hang, p'') => (Hang, p'')
                            end
           | (Err e, p') => match smtp_exit p' with
                            | (Val _, p'') => (Err e, p'')
                            | (Err e', p'') => (Err e', p'')
                            | (Hang, p'') => (Hang, p'')
                            end
           | (Hang, p') => (Hang, p')
           end.

(** [str(e)], for the exceptions a handler of the scripts can meet: those
    of [smtplib]. *)
Definition exn_str (e : exn) : string :=
  match e with
  | SMTPException msg => msg
  | ConnectionRefusedError => "[Errno 111] Connection refused"
  | BrokenPipeError => "[Errno 32] Broken pipe"
  | UnicodeDecodeError | ValueError | ReadError => ""
  end.

Definition send_test_email : M bool :=
  print "📧 Sending test email...";;
  try_except
    (with_SMTP
       (smtp_do SMTP_ehlo;;
        smtp_do SMTP_mail;;
        smtp_do SMTP_rcpt;;
        smtp_do SMTP_data);;
     print "✅ Email sent successfully!";;
     ret true)
    (fun e =>
       print ("❌ Failed to send email: " ++ exn_str e);;
       log EvTraceback;;
       ret false).

(** [os.path.exists(path)] *)
Definition path_exists (path : string) : M bool :=
  fun p => (Val (match fs (env p) path with Absent => false | _ => true end), p).

(** [glob.glob(f"{dir}/*")]: the entries of [dir] whose name does not start
    with a dot, each standing for the path [dir ++ "/" ++ name]; nothing when
    [dir] is not a directory. *)
Definition glob_star (dir : string) : M (list entry) :=
  fun p => (Val (match fs (env p) dir with
                 | Dir entries => filter (fun e => negb (startswith "." (name e))) entries
                 | _ => []
                 end), p).

(** [max(x :: xs, key=os.path.getctime)]: the first entry whose key is not
    exceeded by a later one. *)
Fixpoint max_ctime (best : entry) (xs : list entry) : entry :=
  match xs with
  | [] => best
  | y :: ys => max_ctime (if (ctime best <? ctime y)%N then y else best) ys
  end.

(** [with open(path, 'r') as f: f.read()] *)
Definition read_text (dir : string) (e : entry) : M string :=
  match text e with
  | Some content => ret content
  | None => raise ReadError
  end.

(** [for x in xs: body x] *)
Fixpoint for_each {A} (xs : list A) (body : A -> M unit) : M unit :=
  match xs with
  | [] => ret tt
  | x :: xs' => body x;; for_each xs' body
  end.

Definition primary_root : string := "data/maildir/admin@delfour.co/new".
Definition alternate_root : string := "mail-rs/data/maildir/admin@delfour.co/new".

(** Lines 62-83: the directory is resolved, listed, and the latest entry is
    read.  [None] stands for the two [return False] exits. *)
Definition latestMessage : M (option string) :=
  let maildir := primary_root in
  found <- path_exists maildir;;
  let maildir := if negb found then alternate_root else maildir in
  found <- path_exists maildir;;
  if negb found then
    print ("❌ Maildir not found: " ++ maildir);;
    ret None
  else
  emails <- glob_star maildir;;
  match emails with
  | [] =>
      print "❌ No emails found in mailbox";;
      ret None
  | e :: es =>
      let latest_email := max_ctime e es in
      print ("📨 Reading email: " ++ basename (maildir ++ "/" ++ name latest_email));;
      content <- read_text maildir latest_email;;
      ret (Some content)
  end.

(** Lines 85-113: the verdict on the content that was read. *)
Definition inspect (content : string) : M bool :=
  let has_auth_header := contains "Authentication-Results:" content in
  if has_auth_header then
    print "✅ Authentication-Results header found!";;
    for_each (split (ascii_of_nat 10) content) (fun line =>
      if contains "Authentication-Results:" line
         || (startswith " " line && contains "spf=" (lower line))
         || (startswith " " line && contains "dkim=" (lower line))
      then print ("   " ++ strip line)
      else ret tt);;
    let has_spf := contains "spf=" (lower content) in
    let has_dkim := contains "dkim=" (lower content) in
    print (nl ++ "📊 Validation Results:");;
    print ("   SPF validated: " ++ (if has_spf then "✅" else "❌"));;
    print ("   DKIM validated: " ++ (if has_dkim then "✅" else "❌"));;
    ret true
  else
    print "❌ Authentication-Results header NOT found";;
    print (nl ++ "📄 Email headers (first 30 lines):");;
    for_each (firstn 30 (split (ascii_of_nat 10) content)) (fun line =>
      print ("   " ++ line));;
    ret false.

Definition check_authentication_header : M bool :=
  print (nl ++ "🔍 Checking for Authentication-Results header...");;
  sleep 1000;;
  latest <- latestMessage;;
  match latest with
  | None => ret false
  | Some content => inspect content
  end.

Definition main : M nat :=
  print (repeat "=" 60);;
  print "SPF/DKIM Authentication Test";;
  print (repeat "=" 60);;
  sent <- send_test_email;;
  if sent then
    found <- check_authentication_header;;
    if found then
      print (nl ++ repeat "=" 60);;
      print "✅ SPF/DKIM INTEGRATION TEST PASSED!";;
      print (repeat "=" 60);;
      ret 0
    else
      print (nl ++ repeat "=" 60);;
      print "❌ SPF/DKIM INTEGRATION TEST FAILED";;
      print "   Authentication header not found in email";;
      print (repeat "=" 60);;
      ret 1
  else
    print (nl ++ repeat "=" 60);;
    print "❌ SPF/DKIM INTEGRATION TEST FAILED";;
    print "   Could not send test email";;
    print (repeat "=" 60);;
    ret 1.

(** [exit(main())]: the status is the value [main] returns; an exception that
    escapes [main] ends the process with status 1. *)
Definition exit_code (r : res nat * proc) : option nat :=
  match fst r with
  | Val n => Some n
  | Err _ => Some 1
  | Hang => None
  end.

End TestSpfDkim.

(* ================================================================= *)
(** ** Vocabulary of the specification *)

Module Spec.
Import PyStr.

(** The lines of a text, cut at line feeds. *)
Definition lines (text : string) : list string := split (ascii_of_nat 10) text.

(** The number of lines of [text] that begin with ["* "]. *)
Definition untagged_line_count (text : string) : nat :=
  List.length (filter (startswith "* ") (lines text)).

(** The number of positions of [s] at which [sub] occurs. *)
Fixpoint occurrences (sub s : string) : nat :=
  (if startswith sub s then 1 else 0) +
  match s with
  | EmptyString => 0
  | String _ s' => occurrences sub s'
  end.

(** The completion line of a response for a tag: the first line that begins
    with the tag followed by a space. *)
Definition completion_line (tag response : string) : option string :=
  find (startswith (tag ++ " ")) (lines response).

(** ["OK" appears on the completion line bearing the tag]. *)
Definition completion_ok (tag response : string) : bool :=
  match completion_line tag response with
  | Some line => contains "OK" line
  | None => false
  end.

(** The tag of a command line: what stands before its first space. *)
Fixpoint tag_of (line : string) : string :=
  match line with
  | EmptyString => EmptyString
  | String c rest => if Ascii.eqb c " " then EmptyString else String c (tag_of rest)
  end.

(** The tags of the commands a script has sent, in order. *)
Definition tags (t : list event) : list string := map tag_of (sent_lines t).

(** ['A%03d' % n] *)
Definition format_tag (n : N) : string :=
  let d := str_of_N n in
  "A" ++ repeat "0" (3 - String.length d) ++ d.

(** The number a tag carries after its letter. *)
Definition tag_number (tag : string) : N := int_of_digits (drop 1 tag).

(** The first read that follows the sending of a line beginning with
    [command]. *)
Fixpoint first_read (t : list event) : option string :=
  match t with
  | [] => None
  | EvRecv _ data :: _ => Some data
  | _ :: t' => first_read t'
  end.

Fixpoint response_to (command : string) (t : list event) : option string :=
  match t with
  | [] => None
  | EvSend d :: t' =>
      if startswith command d then first_read t' else response_to command t'
  | _ :: t' => response_to command t'
  end.

(** Was [line] printed? *)
Definition said (line : string) (t : list event) : bool :=
  existsb (String.eqb line) (printed t).

(** Is the event a print? *)
Definition is_print (e : event) : bool :=
  match e with EvPrint _ => true | _ => false end.



(** The four IMAP scripts. *)
Inductive imap_script : Type := Full | E2e | All | Basic.

Definition program (s : imap_script) : M unit :=
  match s with
  | Full => TestImapFull.test_complete_flow
  | E2e => TestImapE2e.test_imap_read
  | All => TestImapAll.test_imap_all
  | Basic => TestImap.test_imap
  end.

End Spec.

(* ================================================================= *)
(** ** Assertions on runs *)

Module Logic.
Import PyStr Spec.

(** [hoare P m Q E]: from a state that satisfies [P], [m] leaves a state
    that satisfies [Q] of its value when it returns, and one that satisfies
    [E] when it raises or blocks. *)
Definition hoare {A} (P : proc -> Prop) (m : M A) (Q : A -> proc -> Prop)
    (E : proc -> Prop) : Prop :=
  forall p, P p ->
    match m p with
    | (Val a, p') => Q a p'
    | (Err _, p') => E p'
    | (Hang, p') => E p'
    end.

(** Every state of [P] is one of [E]. *)
Definition leads (P E : proc -> Prop) : Prop := forall p, P p -> E p.

(** The lines sent so far are the first [k] of [L]. *)
Definition at_line (L : list string) (k : nat) (p : proc) : Prop :=
  sent_lines (trace p) = firstn k L.

(** The state after an event has been recorded. *)
Definition logged (e : event) (p : proc) : proc :=
  mkProc (env p) (inbuf p) (reactions p) (trace p ++ [e]).

(** Any state. *)
Definition always (p : proc) : Prop := True.

(** What [glob] lists in a directory of a world. *)
Definition listing (w : world) (dir : string) : list entry :=
  match fs w dir with
  | Dir entries => filter (fun e => negb (startswith "." (name e))) entries
  | _ => []
  end.


(** The state in which [check_authentication_header] looks for the mail. *)
Definition after_wait (p : proc) : proc :=
  logged (EvSleep 1000)
    (logged (EvPrint (nl ++ "🔍 Checking for Authentication-Results header...")) p).

(** The two verdict lines of test-imap-e2e.py. *)
Definition success_line : string :=
  nl ++ "🎉 SUCCESS! The E2E test email is readable via IMAP!".

Definition confirmed_line : string := "✅ E2E test message confirmed!".

(** No FETCH command has been sent. *)
Definition no_fetch (t : list event) : bool :=
  forallb (fun d => negb (startswith "A003 FETCH" d)) (sent_lines t).

(** Where a run of test-imap-e2e.py stands: the response read for the FETCH
    command, if one was sent, and whether each verdict line was printed. *)
Definition phase (fetched : option string) (success confirmed : bool)
    (p : proc) : Prop :=
  match fetched with
  | None => no_fetch (trace p) = true
  | Some r => response_to "A003 FETCH" (trace p) = Some r
  end /\
  said success_line (trace p) = success /\
  said confirmed_line (trace p) = confirmed.

(** The verdict lines printed are those the response calls for. *)
Definition consistent (fetched : option string) (success confirmed : bool) : Prop :=
  match fetched with
  | None => success = false /\ confirmed = false
  | Some r =>
      success = contains "E2E Test Email" r /\
      confirmed = contains "E2E Test Email" r && contains "full stack is working" r
  end.

Definition settled (p : proc) : Prop :=
  exists fetched success confirmed,
    phase fetched success confirmed p /\ consistent fetched success confirmed.

(** Some prefix of [L] has been sent. *)
Definition within (L : list string) (p : proc) : Prop := exists k, at_line L k p.

(** The command lines of each script, in program order; the FETCH of
    test-imap-e2e.py is there when SELECT reported a message count. *)
Definition wire (commands : list string) : list string :=
  map (fun c => c ++ crlf) commands.

Definition full_lines : list string :=
  wire ["A001 LOGIN test@example.com password123";
        "A002 SELECT INBOX";
        "A003 FETCH 1:* BODY[]";
        "A004 LIST " ++ dquote ++ dquote ++ " " ++ dquote ++ "*" ++ dquote;
        "A005 LOGOUT"].

Definition e2e_lines (count : option N) : list string :=
  wire (["A001 LOGIN test@example.com password123";
         "A002 SELECT INBOX"]
        ++ match count with
           | Some n => ["A003 FETCH " ++ str_of_N n ++ " BODY[]"]
           | None => []
           end
        ++ ["A004 LOGOUT"]).

Definition all_lines : list string :=
  wire ["A001 LOGIN test@example.com password123";
        "A002 SELECT INBOX";
        "A003 FETCH 1:* BODY[]";
        "A004 LOGOUT"].

Definition basic_lines : list string :=
  wire ["A001 CAPABILITY";
        "A002 NOOP";
        "A003 LOGIN test@example.com wrongpass";
        "A004 LOGOUT"].

(** The lists a script may follow. *)
Definition follows (s : imap_script) (L : list string) : Prop :=
  match s with
  | Full => L = full_lines
  | E2e => exists count, L = e2e_lines count
  | All => L = all_lines
  | Basic => L = basic_lines
  end.

(** One tag after another: greater as a string and as a number. *)
Definition tag_step (a b : string) : bool :=
  String.ltb a b && (tag_number a <? tag_number b)%N.

Fixpoint ascending (l : list string) : bool :=
  match l with
  | a :: (b :: _) as rest => tag_step a b && ascending rest
  | _ => true
  end.

Definition well_tagged (l : list string) : bool :=
  match l with [] => true | a :: _ => String.eqb a "A001" end
  && ascending l
  && forallb (fun a => String.eqb a (format_tag (tag_number a))) l.

(** The [n]-th tag is greater, as a string and as a number, than the one
    before it. *)
Definition strictly_increasing (tags : list string) : Prop :=
  forall n prev cur,
    nth_error tags n = Some prev -> nth_error tags (S n) = Some cur ->
    String.ltb prev cur = true /\ (tag_number prev < tag_number cur)%N.

End Logic.

(* ================================================================= *)
(** ** Sample inputs *)

Module Samples.
Import PyStr.

(** A FETCH response whose message body has a ["* "] inside a line. *)
Definition fetch_star_in_body : string :=
  "* 1 FETCH (BODY[] {84}" ++ crlf ++
  "Subject: E2E Test Email - 2024-01-01 00:00:00" ++ crlf ++
  crlf ++
  "3 * 4 = 12; full stack is working" ++ crlf ++
  ")" ++ crlf ++
  "A003 OK FETCH completed" ++ crlf.

(** A FETCH that the server refuses, after data whose body says OK. *)
Definition fetch_refused_ok_in_body : string :=
  "* 1 FETCH (BODY[] {22}" ++ crlf ++
  "Subject: OK" ++ crlf ++
  crlf ++
  "hello" ++ crlf ++
  ")" ++ crlf ++
  "A003 NO FETCH failed" ++ crlf.

(** A LOGIN that the server refuses. *)
Definition login_refused : string :=
  "A001 NO [AUTHENTICATIONFAILED] Authentication failed" ++ crlf.



(** An interpreter with the default limit on digits; the texts of the
    samples are ASCII, so its table of digits is never consulted. *)
Definition cpython : interpreter := mkInterpreter (fun _ => None) 4300.


(** A world whose IMAP peer accepts the connection and greets. *)
Definition imap_world : world :=
  mkWorld true ("* OK IMAP4rev1 Service Ready" ++ crlf) (fun _ => None) (fun _ => Absent)
          cpython.

(** A delivered message with an Authentication-Results header that carries
    neither an SPF nor a DKIM result. *)
Definition message_without_results : string :=
  "Return-Path: <test@example.com>" ++ nl ++
  "Authentication-Results: mail.delfour.co; none" ++ nl ++
  "Subject: SPF/DKIM Test Email" ++ nl ++
  nl ++
  "This is a test email to verify SPF/DKIM authentication." ++ nl.

(** A delivered message whose header gives the SPF result in capitals and
    no DKIM result. *)
Definition message_with_spf : string :=
  "Return-Path: <test@example.com>" ++ nl ++
  "Authentication-Results: mail.delfour.co;" ++ nl ++
  " SPF=Pass smtp.mailfrom=example.com" ++ nl ++
  "Subject: SPF/DKIM Test Email" ++ nl ++
  nl ++
  "This is a test email." ++ nl.

(** A message without the header, whose body names it. *)
Definition message_naming_header : string :=
  "Subject: question" ++ nl ++
  nl ++
  "Should the server add an Authentication-Results: header?" ++ nl.

(** A mailbox under the primary root with two messages. *)
Definition two_messages : list entry :=
  [mkEntry "1733227200.M1.mail" 1733227200 (Some message_naming_header);
   mkEntry "1733227260.M2.mail" 1733227260 (Some message_without_results)].

Definition mail_world : world :=
  mkWorld true "" (fun _ => None)
    (fun path => if String.eqb path TestSpfDkim.primary_root
                 then Dir two_messages else Absent)
    cpython.

(** A server whose INBOX holds one message, an older test message with
    another Subject and another body. *)
Definition stale_fetch : string :=
  "* 1 FETCH (BODY[] {72}" ++ crlf ++
  "Subject: E2E Test Email - 2023-12-31 23:59:59" ++ crlf ++
  crlf ++
  "An older message." ++ crlf ++
  ")" ++ crlf ++
  "A003 OK FETCH completed" ++ crlf.

Definition stale_inbox : list reaction :=
  [Reply ("A001 OK LOGIN completed" ++ crlf);
   Reply ("* 1 EXISTS" ++ crlf ++ "A002 OK [READ-WRITE] SELECT completed" ++ crlf);
   Reply stale_fetch;
   Reply ("* BYE" ++ crlf ++ "A004 OK LOGOUT completed" ++ crlf)].

(** A server that lets the wrong password in, and one that refuses it. *)
Definition wrong_password_accepted : list reaction :=
  [Reply ("* CAPABILITY IMAP4rev1" ++ crlf ++ "A001 OK CAPABILITY completed" ++ crlf);
   Reply ("A002 OK NOOP completed" ++ crlf);
   Reply ("A003 OK LOGIN completed" ++ crlf);
   Reply ("* BYE" ++ crlf ++ "A004 OK LOGOUT completed" ++ crlf)].

Definition wrong_password_refused : list reaction :=
  [Reply ("* CAPABILITY IMAP4rev1" ++ crlf ++ "A001 OK CAPABILITY completed" ++ crlf);
   Reply ("A002 OK NOOP completed" ++ crlf);
   Reply ("A003 NO [AUTHENTICATIONFAILED] Authentication failed" ++ crlf);
   Reply ("* BYE" ++ crlf ++ "A004 OK LOGOUT completed" ++ crlf)].

End Samples.

(* ================================================================= *)
(** ** send-test-email.py *)

Module SendTestEmail.
Import PyStr.

(** The calls the script makes on [smtplib]; [sendmail] is one call of the
    library, whatever commands it sends. *)
Inductive call : Type :=
| Connect      (* smtplib.SMTP(smtp_host, smtp_port, timeout=10) *)
| Ehlo         (* server.ehlo() *)
| Sendmail     (* server.sendmail(from_addr, [to_addr], msg.as_string()) *)
| Quit.        (* server.quit() *)

(** The server and the library, as the script sees them: [Some msg] when
    the call raises an exception [e] with [str(e) = msg]. *)
Definition server : Type := call -> option string.

Inductive action : Type :=
| Out (line : string)     (* print(line) *)
| Call (c : call)         (* a call that returned *)
| Stack.                  (* traceback.print_exc() *)

(** A statement: from what was done so far to a value or the message of
    the exception raised, and what has been done then. *)
Definition T (A : Type) : Type := list action -> (A + string) * list action.

Definition done {A} (a : A) : T A := fun t => (inl a, t).

Definition next {A B} (m : T A) (k : T B) : T B :=
  fun t => match m t with
           | (inl _, t') => k t'
           | (inr msg, t') => (inr msg, t')
           end.

(** [try: m except Exception as e: h (str(e))] *)
Definition attempt {A} (m : T A) (h : string -> T A) : T A :=
  fun t => match m t with
           | (inl a, t') => (inl a, t')
           | (inr msg, t') => h msg t'
           end.

Definition out (line : string) : T unit := fun t => (inl tt, (t ++ [Out line])%list).

Definition stack : T unit := fun t => (inl tt, (t ++ [Stack])%list).

Definition ask (srv : server) (c : call) : T unit :=
  fun t => match srv c with
           | None => (inl tt, (t ++ [Call c])%list)
           | Some msg => (inr msg, t)
           end.

Definition delivered_line : string := "✅ Email sent successfully!".

Definition failed_line (msg : string) : string := "❌ Failed to send email: " ++ msg.

(** [timestamp] is the clock's reading, as the Subject carries it. *)
Definition send_email (srv : server) (timestamp : string) : T bool :=
  attempt
    (next (out "Connecting to SMTP server at localhost:2525...")
    (next (ask srv Connect)
    (next (out "Sending EHLO...")
    (next (ask srv Ehlo)
    (next (out "Sending email from sender@example.com to test@example.com...")
    (next (ask srv Sendmail)
    (next (out delivered_line)
    (next (out "   From: sender@example.com")
    (next (out "   To: test@example.com")
    (next (out ("   Subject: " ++ "E2E Test Email - " ++ timestamp))
    (next (ask srv Quit)
          (done true))))))))))))
    (fun msg =>
       next (out (failed_line msg))
      (next stack
            (done false))).

(** Observations. *)
Definition called (c : call) (t : list action) : bool :=
  existsb (fun a => match a, c with
                    | Call Connect, Connect | Call Ehlo, Ehlo
                    | Call Sendmail, Sendmail | Call Quit, Quit => true
                    | _, _ => false
                    end) t.

Definition shown (line : string) (t : list action) : bool :=
  existsb (fun a => match a with Out l => String.eqb line l | _ => false end) t.

Definition works (srv : server) (c : call) : bool :=
  match srv c with None => true | Some _ => false end.

End SendTestEmail.

(* ================================================================= *)
(** ** Further vocabulary *)

Module Outcomes.
Import PyStr Spec Logic.

(** Text made of ASCII characters only: it is its own decoding, and so is
    every piece a read cuts from it. *)
Definition ascii_only (s : string) : bool :=
  forallb (byte_in 0 127) (list_ascii_of_string s).

(** Some ASCII text. *)
Definition wordy (s : string) : bool := ascii_only s && negb (String.eqb s "").

(** A peer that accepts the connection, greets with some ASCII text, and
    answers each of the first [n] lines it is sent with some ASCII text;
    what it says is not restricted. *)
Definition talks (n : nat) (w : world) (rs : list reaction) : bool :=
  accepts w && wordy (greeting w) && (n <=? List.length rs)%nat
  && forallb (fun r => match r with Reply b => wordy b | Drop => false end)
             (firstn n rs).

(** The socket has not been closed. *)
Definition unclosed (p : proc) : Prop := closed (trace p) = false.




(** The lines in which test_spf_dkim.py reports what it looked for. *)
Definition results_line : string := nl ++ "📊 Validation Results:".

Definition spf_line (found : bool) : string :=
  "   SPF validated: " ++ (if found then "✅" else "❌").

Definition dkim_line (found : bool) : string :=
  "   DKIM validated: " ++ (if found then "✅" else "❌").

(** Events that leave the phase of a run of test-imap-e2e.py as it is. *)
Definition neutral (e : event) : Prop :=
  match e with
  | EvSend d => startswith "A003 FETCH" d = false
  | EvPrint l => String.eqb success_line l = false /\ String.eqb confirmed_line l = false
  | _ => True
  end.

(** A run of test-imap-e2e.py that ended after its FETCH was sent and
    before any text was read for it: no verdict line was printed. *)
Definition unanswered (p : proc) : Prop :=
  response_to "A003 FETCH" (trace p) = None /\
  said success_line (trace p) = false /\
  said confirmed_line (trace p) = false.

Definition concluded (p : proc) : Prop := settled p \/ unanswered p.

(** The last command of test-imap-e2e.py. *)
Definition logout_line : string := "A004 LOGOUT" ++ crlf.

End Outcomes.

(* ================================================================= *)
(** ** What the scripts report *)

Module Reports.
Import PyStr Spec Logic.

(** What test-imap-all.py prints once it has read a response to its FETCH. *)
Definition all_report (response : string) : list string :=
  if contains "E2E Test Email" response && contains "full stack is working" response
  then [nl ++ "🎉 SUCCESS! The E2E test email is readable via IMAP!";
        nl ++ "✅ SMTP → Maildir → IMAP chain works perfectly!";
        nl ++ "📬 Total emails fetched: "
           ++ TestImapAll.str_of_Z (TestImapAll.approximateMessageCount response)]
  else [nl ++ "⚠️  E2E test email not found in response";
        nl ++ "Response preview:";
        take_chars 500 response].

(** The last lines test-imap-all.py prints. *)
Definition all_closing : list string :=
  [nl ++ "4. Logging out..."; "→ A004 LOGOUT"; nl ++ "=== Test Complete ==="].

(** What send-smtp-raw.py sends, in program order. *)
Definition smtp_lines (timestamp date : string) : list string :=
  wire ["EHLO test-client";
        "MAIL FROM:<sender@example.com>";
        "RCPT TO:<test@example.com>";
        "DATA"]
  ++ [SendSmtpRaw.email_content timestamp date]
  ++ wire ["QUIT"].

Definition sent_line : string := nl ++ "✅ Email sent successfully!".


(** The carriage return. *)
Definition cr : string := String (ascii_of_nat 13) EmptyString.


(** The number [int()] gives for a run of decimal digits, and whether the
    run is too long for it. *)
Definition group_value (py : interpreter) (ds : list string) : N :=
  fold_left (fun acc c => (10 * acc + TestImapE2e.digit_value py c)%N) ds 0%N.

Definition too_long (py : interpreter) (ds : list string) : bool :=
  ((0 <? max_str_digits py) && (max_str_digits py <? List.length ds))%nat.

End Reports.

(* ================================================================= *)
(** ** Facts about the string operations *)

Module PyStrFacts.
Import PyStr.

Lemma append_assoc (a b c : string) : (a ++ b) ++ c = a ++ (b ++ c).
Proof.
  induction a as [|x a IH]; simpl; [reflexivity | now rewrite IH].
Qed.

Lemma append_empty_r (a : string) : a ++ "" = a.
Proof.
  induction a as [|x a IH]; simpl; [reflexivity | now rewrite IH].
Qed.

Lemma length_append (a b : string) :
  String.length (a ++ b) = String.length a + String.length b.
Proof.
  induction a as [|x a IH]; simpl; [reflexivity | now rewrite IH].
Qed.

(** [startswith] is "is a prefix of". *)
Lemma startswith_iff (p s : string) :
  startswith p s = true <-> exists r, s = p ++ r.
Proof.
  unfold startswith. revert s.
  induction p as [|x p IH]; intros s; simpl.
  - destruct s; split; eauto.
  - destruct s as [|y s].
    + split; [discriminate | intros [r H]; discriminate].
    + unfold prefix; fold prefix. destruct (ascii_dec x y) as [->|N].
      * rewrite IH. split; intros [r H]; exists r; [now subst | now inversion H].
      * split; [discriminate | intros [r H]; inversion H; subst; now elim N].
Qed.

Lemma startswith_app (p r : string) : startswith p (p ++ r) = true.
Proof. apply startswith_iff. now exists r. Qed.

(** [needle in s] holds exactly when [s] can be cut around [needle]. *)
Lemma contains_iff (needle s : string) :
  contains needle s = true <-> exists a b, s = a ++ needle ++ b.
Proof.
  induction s as [|c s IH]; cbn [contains].
  - rewrite orb_false_r, startswith_iff. split.
    + intros [r H]. exists "", r. exact H.
    + intros [a [b H]]. destruct a; simpl in H; [eauto | discriminate].
  - rewrite orb_true_iff, startswith_iff, IH. split.
    + intros [[r H] | [a [b H]]].
      * exists "", r. exact H.
      * exists (String c a), b. simpl. now rewrite H.
    + intros [a [b H]]. destruct a as [|x a]; simpl in H.
      * left. eauto.
      * right. inversion H. eauto.
Qed.

Lemma contains_app (a needle b : string) : contains needle (a ++ needle ++ b) = true.
Proof. apply contains_iff. eauto. Qed.

(** Containment is transitive. *)
Lemma contains_trans (x y z : string) :
  contains x y = true -> contains y z = true -> contains x z = true.
Proof.
  rewrite !contains_iff. intros [a [b ->]] [c [d ->]].
  exists (c ++ a), (b ++ d). now rewrite !append_assoc.
Qed.

Lemma contains_of_startswith (p s : string) :
  startswith p s = true -> contains p s = true.
Proof.
  rewrite startswith_iff, contains_iff. intros [r ->]. now exists "", r.
Qed.




(** A line of a text is a piece of it. *)
Lemma split_nonempty (sep : ascii) (s : string) : split sep s <> [].
Proof.
  destruct s as [|c s]; simpl; [discriminate |].
  destruct (Ascii.eqb c sep); [discriminate |].
  destruct (split sep s); discriminate.
Qed.

Lemma split_head (sep : ascii) (s l : string) (ls : list string) :
  split sep s = l :: ls -> exists r, s = l ++ r.
Proof.
  revert l ls. induction s as [|c s IH]; simpl; intros l ls H.
  - inversion H. now exists "".
  - destruct (Ascii.eqb c sep).
    + inversion H. now exists (String c s).
    + destruct (split sep s) as [|l' ls'] eqn:E.
      * inversion H. exists s. reflexivity.
      * inversion H; subst. destruct (IH l' ls eq_refl) as [r ->].
        now exists r.
Qed.

Lemma split_In (sep : ascii) (s l : string) :
  In l (split sep s) -> exists a b, s = a ++ l ++ b.
Proof.
  revert l. induction s as [|c s IH]; simpl; intros l H.
  - destruct H as [<- | []]. now exists "", "".
  - destruct (Ascii.eqb c sep).
    + destruct H as [<- | H].
      * now exists "", (String c s).
      * destruct (IH l H) as [a [b ->]]. now exists (String c a), b.
    + destruct (split sep s) as [|l' ls'] eqn:E.
      * destruct H as [<- | []]. exists "", s. reflexivity.
      * destruct H as [<- | H].
        -- destruct (split_head _ _ _ _ E) as [r ->]. now exists "", r.
        -- destruct (IH l (or_intror H)) as [a [b ->]]. now exists (String c a), b.
Qed.

Lemma contains_line (sep : ascii) (needle s l : string) :
  In l (split sep s) -> contains needle l = true -> contains needle s = true.
Proof.
  intros H C. apply contains_trans with (y := l); [exact C |].
  apply contains_iff. now apply split_In with (sep := sep).
Qed.

End PyStrFacts.

(* ================================================================= *)
(** ** Counting ["* "] (test-imap-all.py) *)

Module CountFacts.
Import PyStr PyStrFacts Spec.

(** Two occurrences of ["* "] never overlap, so the left-to-right count of
    [str.count] is the number of positions at which it occurs. *)
Lemma count_from_star (s : string) :
  count_from "* " s 0 = occurrences "* " s /\
  count_from "* " s 1 = occurrences "* " (drop 1 s).
Proof.
  induction s as [|c s [IH0 IH1]].
  - split; reflexivity.
  - split; [| exact IH0].
    cbn [count_from occurrences].
    destruct (startswith "* " (String c s)) eqn:E.
    + apply startswith_iff in E. destruct E as [r E].
      inversion E; subst. cbn [String.length Nat.sub].
      rewrite IH1. reflexivity.
    + rewrite IH0. reflexivity.
Qed.

Lemma count_star (s : string) : count "* " s = occurrences "* " s.
Proof. apply count_from_star. Qed.

Lemma occurrences_none (sub s : string) :
  contains sub s = false -> occurrences sub s = 0.
Proof.
  induction s as [|c s IH]; cbn [contains occurrences]; intros H;
    apply orb_false_iff in H; destruct H as [-> H]; [reflexivity |].
  now rewrite IH.
Qed.

Lemma occurrences_some (sub s : string) :
  contains sub s = true -> 1 <= occurrences sub s.
Proof.
  induction s as [|c s IH]; cbn [contains occurrences]; intros H;
    apply orb_true_iff in H; destruct H as [-> | H]; try discriminate; try lia.
  specialize (IH H). lia.
Qed.

(** A first line that begins with ["* "] makes the text begin with it. *)
Lemma first_line_star (s l : string) (ls : list string) :
  lines s = l :: ls -> startswith "* " l = true -> startswith "* " s = true.
Proof.
  intros H L. apply split_head in H. destruct H as [r ->].
  apply startswith_iff in L. destruct L as [r' ->].
  apply startswith_iff. exists (r' ++ r). now rewrite append_assoc.
Qed.

(** Every line that begins with ["* "] is an occurrence of ["* "]. *)
Lemma untagged_lines_le_occurrences (s : string) :
  untagged_line_count s <= occurrences "* " s.
Proof.
  unfold untagged_line_count.
  induction s as [|c s IH]; [cbn; lia |].
  cbn [occurrences]. unfold lines in *. cbn [split].
  destruct (Ascii.eqb c (ascii_of_nat 10)) eqn:Ec.
  - cbn [filter]. replace (startswith "* " "") with false by reflexivity. lia.
  - destruct (split (ascii_of_nat 10) s) as [|l ls] eqn:El.
    + now apply split_nonempty in El.
    + cbn [filter] in *.
      destruct (startswith "* " (String c l)) eqn:E1.
      * assert (E2 : startswith "* " (String c s) = true).
        { apply (first_line_star (String c s) (String c l) ls); [| exact E1].
          unfold lines. cbn [split]. now rewrite Ec, El. }
        rewrite E2. destruct (startswith "* " l); cbn [List.length] in *; lia.
      * destruct (startswith "* " l); cbn [List.length] in *; lia.
Qed.

End CountFacts.

(* ================================================================= *)
(** ** Facts derived from a response *)

Module FactClaims.
Import PyStr PyStrFacts Spec CountFacts Samples.
Import TestImapAll TestImapFull.

(** C2, as stated, fails: on a FETCH response whose body holds ["* "] inside
    a line, [approximateMessageCount] is 1 while the lines beginning with
    ["* "], minus one, are 0. *)
Lemma C2_counterexample :
  approximateMessageCount fetch_star_in_body = 1%Z /\
  (Z.of_nat (untagged_line_count fetch_star_in_body) - 1 = 0)%Z.
Proof. split; vm_compute; reflexivity. Qed.

(** C2, amended: [approximateMessageCount text] is the number of occurrences
    of ["* "] anywhere in [text], minus one; it is never below the number of
    lines beginning with ["* "] minus one; and it is -1, unclamped, exactly
    when ["* "] does not occur in [text]. *)
Theorem C2_approximateMessageCount (text : string) :
  approximateMessageCount text = (Z.of_nat (occurrences "* " text) - 1)%Z /\
  (Z.of_nat (untagged_line_count text) - 1 <= approximateMessageCount text)%Z /\
  (approximateMessageCount text = (-1)%Z <-> contains "* " text = false).
Proof.
  unfold approximateMessageCount. rewrite count_star.
  split; [reflexivity | split].
  - pose proof (untagged_lines_le_occurrences text). lia.
  - split; intros H.
    + destruct (contains "* " text) eqn:E; [| reflexivity].
      apply occurrences_some in E. lia.
    + rewrite (occurrences_none _ _ H). reflexivity.
Qed.

(** C3, as stated, fails: a refused FETCH whose data carries OK in the
    message makes [statusOk] true although the completion line for the tag
    says NO. *)
Lemma C3_counterexample :
  statusOk fetch_refused_ok_in_body = true /\
  completion_line "A003" fetch_refused_ok_in_body
    = Some ("A003 NO FETCH failed" ++ String (ascii_of_nat 13) "") /\
  completion_ok "A003" fetch_refused_ok_in_body = false.
Proof. repeat split; vm_compute; reflexivity. Qed.

(** C3, amended: [statusOk] is true exactly when OK occurs somewhere in the
    response text; in particular it is true whenever OK stands on the
    completion line of the tag, whatever the tag. *)
Theorem C3_statusOk (tag response : string) :
  (statusOk response = true <-> exists a b, response = a ++ "OK" ++ b) /\
  (completion_ok tag response = true -> statusOk response = true).
Proof.
  unfold statusOk. split; [apply contains_iff |].
  unfold completion_ok, completion_line.
  destruct (find _ _) as [line|] eqn:F; [| discriminate].
  apply find_some in F. destruct F as [F _].
  intros H. exact (contains_line _ _ _ _ F H).
Qed.

End FactClaims.

(* ================================================================= *)
(** ** One command, one read *)

Module ExchangeClaims.
Import PyStr PyStrFacts Spec.














End ExchangeClaims.

(* ================================================================= *)
(** ** Rules for assertions *)

Module HoareFacts.
Import PyStr PyStrFacts Spec Logic.

Lemma hoare_ret {A} (P : proc -> Prop) (a : A) (Q : A -> proc -> Prop) E :
  (forall p, P p -> Q a p) -> hoare P (ret a) Q E.
Proof. intros H p Hp. cbn. auto. Qed.

Lemma hoare_bind {A B} (P : proc -> Prop) (m : M A) (k : A -> M B)
    (R : A -> proc -> Prop) (Q : B -> proc -> Prop) E :
  hoare P m R E -> (forall a, hoare (R a) (k a) Q E) -> hoare P (bind m k) Q E.
Proof.
  intros Hm Hk p Hp. unfold bind. specialize (Hm p Hp).
  destruct (m p) as [[a|e|] p']; [apply (Hk a p' Hm) | exact Hm | exact Hm].
Qed.

Lemma hoare_weaken {A} (P P' : proc -> Prop) (m : M A)
    (Q Q' : A -> proc -> Prop) (E E' : proc -> Prop) :
  hoare P' m Q' E' ->
  (forall p, P p -> P' p) -> (forall a p, Q' a p -> Q a p) ->
  (forall p, E' p -> E p) ->
  hoare P m Q E.
Proof.
  intros H HP HQ HE p Hp. specialize (H p (HP p Hp)).
  destruct (m p) as [[a|e|] p']; auto.
Qed.

Lemma hoare_post {A} (P : proc -> Prop) (m : M A)
    (Q Q' : A -> proc -> Prop) (E : proc -> Prop) :
  hoare P m Q' E -> (forall a p, Q' a p -> Q a p) -> hoare P m Q E.
Proof. intros H HQ. eapply hoare_weaken; eauto. Qed.

Lemma hoare_conj {A} (P P' : proc -> Prop) (m : M A)
    (Q Q' : A -> proc -> Prop) (E E' : proc -> Prop) :
  hoare P m Q E -> hoare P' m Q' E' ->
  hoare (fun p => P p /\ P' p) m (fun a p => Q a p /\ Q' a p)
        (fun p => E p /\ E' p).
Proof.
  intros H H' p [Hp Hp']. specialize (H p Hp). specialize (H' p Hp').
  destruct (m p) as [[a|e|] p']; auto.
Qed.

Lemma hoare_exists {A X} (P : X -> proc -> Prop) (m : M A) Q E :
  (forall x, hoare (P x) m Q E) -> hoare (fun p => exists x, P x p) m Q E.
Proof. intros H p [x Hp]. exact (H x p Hp). Qed.

(** What a run from the initial state ends in. *)
Lemma hoare_run {A} (P : proc -> Prop) (m : M A) Q E (w : world) (rs : list reaction) :
  hoare P m Q E -> P (boot w rs) ->
  match fst (run m w rs) with
  | Val a => Q a (snd (run m w rs))
  | Err _ | Hang => E (snd (run m w rs))
  end.
Proof.
  intros H Hp. specialize (H _ Hp). unfold run.
  destruct (m (boot w rs)) as [[a|e|] p']; exact H.
Qed.

(** A statement that leaves the state as it is. *)
Lemma hoare_still {A} (P E : proc -> Prop) (m : M A) :
  (forall p, snd (m p) = p) -> leads P E -> hoare P m (fun _ => P) E.
Proof.
  intros S HE p Hp. specialize (S p).
  destruct (m p) as [[a|e|] p']; cbn in S; subst p'; auto.
Qed.

Lemma search_still (s : string) (p : proc) :
  snd (TestImapE2e.re_search_exists s p) = p.
Proof. reflexivity. Qed.

Lemma int_still (ds : list string) (p : proc) :
  snd (TestImapE2e.int_of_group ds p) = p.
Proof. unfold TestImapE2e.int_of_group. now destruct (_ && _). Qed.

(** *** The lines sent *)

Lemma sent_lines_snoc (t : list event) (e : event) :
  sent_lines (t ++ [e]) = (sent_lines t ++ sent_lines [e])%list.
Proof. unfold sent_lines. now rewrite flat_map_app. Qed.

Lemma firstn_snoc {A} (L : list A) (k : nat) (x : A) :
  nth_error L k = Some x -> firstn (S k) L = (firstn k L ++ [x])%list.
Proof.
  revert k. induction L as [|y L IH]; intros [|k] H; cbn in *; try discriminate.
  - now inversion H.
  - now rewrite (IH k H).
Qed.

Lemma at_log L k e E :
  (forall d, e <> EvSend d) -> hoare (at_line L k) (log e) (fun _ => at_line L k) E.
Proof.
  intros N p Hp. cbn. unfold at_line in *. cbn [trace].
  rewrite sent_lines_snoc, Hp.
  destruct e; cbn; try now rewrite app_nil_r. now elim (N data).
Qed.

Lemma at_print L k l E : hoare (at_line L k) (print l) (fun _ => at_line L k) E.
Proof. apply at_log. discriminate. Qed.

Lemma at_sleep L k n E : hoare (at_line L k) (sleep n) (fun _ => at_line L k) E.
Proof. apply at_log. discriminate. Qed.

Lemma at_close L k E : hoare (at_line L k) close (fun _ => at_line L k) E.
Proof. apply at_log. discriminate. Qed.

Lemma at_recv L k n (E : proc -> Prop) :
  leads (at_line L k) E ->
  hoare (at_line L k) (recv n) (fun _ => at_line L k) E.
Proof.
  intros HE p Hp. unfold recv.
  assert (K : forall e w buf rs, (forall d, e <> EvSend d) ->
                at_line L k (mkProc w buf rs (trace p ++ [e]))).
  { intros e w buf rs N. exact (at_log L k e (fun _ => True) N p Hp). }
  destruct (inbuf p); [apply HE, K; discriminate |].
  destruct (utf8 _); [apply K | apply HE, K]; discriminate.
Qed.

Lemma at_connect L k h n (E : proc -> Prop) :
  leads (at_line L k) E ->
  hoare (at_line L k) (connect h n) (fun _ => at_line L k) E.
Proof.
  intros HE p Hp. unfold connect. destruct (accepts (env p)); [| auto].
  unfold at_line in *. cbn [trace]. rewrite sent_lines_snoc, Hp. cbn.
  now rewrite app_nil_r.
Qed.

Lemma at_sendall L k d (E : proc -> Prop) :
  nth_error L k = Some d ->
  leads (at_line L k) E ->
  hoare (at_line L k) (sendall d) (fun _ => at_line L (S k)) E.
Proof.
  intros Hn HE p Hp. unfold sendall.
  destruct (reactions p) as [|[b|] rs]; unfold at_line in *; cbn [trace];
    rewrite ?sent_lines_snoc, ?(firstn_snoc _ _ _ Hn), ?Hp; try reflexivity.
  apply HE. exact Hp.
Qed.

End HoareFacts.

(* ================================================================= *)
(** ** The commands each IMAP script sends *)

Module TraceFacts.
Import PyStr PyStrFacts Spec Logic HoareFacts.

Create HintDb hoare discriminated.
#[export] Hint Constants Opaque : hoare.
#[export] Hint Variables Opaque : hoare.
#[export] Hint Resolve at_print at_sleep at_close at_recv at_connect at_sendall : hoare.
#[export] Hint Resolve search_still int_still : hoare.
#[export] Hint Extern 1 (hoare _ (TestImapE2e.re_search_exists _) _ _) =>
  apply hoare_still : hoare.
#[export] Hint Extern 1 (hoare _ (TestImapE2e.int_of_group _) _ _) =>
  apply hoare_still : hoare.
#[export] Hint Extern 1 (nth_error _ _ = Some _) => reflexivity : hoare.
#[export] Hint Extern 2 (leads _ _) =>
  (unfold leads, within; intros; eauto) : hoare.

(** One statement of a sequence. *)
Ltac hstep :=
  lazymatch goal with
  | |- hoare _ (bind _ _) _ _ =>
      eapply hoare_bind; [solve [eauto with hoare] | intros]
  end.

Ltac hsteps :=
  repeat first
    [ hstep
    | match goal with
      | |- hoare _ (if ?c then _ else _) _ _ => destruct c
      end ].

(** A sequence whose first statement needs its assertion spelled out. *)
Ltac hmid mid := eapply hoare_bind with (R := mid); [| intros].

Ltac hdone :=
  lazymatch goal with
  | |- hoare _ (ret _) _ _ => apply hoare_ret; intros; cbn beta; eauto with hoare
  | |- hoare _ _ _ _ =>
      eapply hoare_post;
      [solve [eauto with hoare] | cbn beta; eauto with hoare]
  end.

Section SendCommand.
Variables (L : list string) (k : nat) (c : string) (E : proc -> Prop).
Hypothesis Hline : nth_error L k = Some (c ++ crlf).
Hypothesis Hbefore : leads (at_line L k) E.
Hypothesis Hafter : leads (at_line L (S k)) E.

Lemma at_send_full :
  hoare (at_line L k) (TestImapFull.send_command c) (fun _ => at_line L (S k)) E.
Proof. unfold TestImapFull.send_command. hsteps. hdone. Qed.

Lemma at_send_e2e :
  hoare (at_line L k) (TestImapE2e.send_command c) (fun _ => at_line L (S k)) E.
Proof. unfold TestImapE2e.send_command. hsteps. hdone. Qed.

Lemma at_send_all :
  hoare (at_line L k) (TestImapAll.send_command c) (fun _ => at_line L (S k)) E.
Proof. unfold TestImapAll.send_command. hsteps. hdone. Qed.

Lemma at_send_basic :
  hoare (at_line L k) (TestImap.send_command c) (fun _ => at_line L (S k)) E.
Proof. unfold TestImap.send_command. hsteps. hdone. Qed.
End SendCommand.

#[export] Hint Resolve at_send_full at_send_e2e at_send_all at_send_basic : hoare.

Lemma within_at L k p : at_line L k p -> within L p.
Proof. intros H. now exists k. Qed.
#[export] Hint Resolve within_at : hoare.

Lemma full_within :
  hoare (at_line full_lines 0) TestImapFull.test_complete_flow
        (fun _ => within full_lines) (within full_lines).
Proof. unfold TestImapFull.test_complete_flow. hsteps; hdone. Qed.

Lemma all_within :
  hoare (at_line all_lines 0) TestImapAll.test_imap_all
        (fun _ => within all_lines) (within all_lines).
Proof.
  unfold TestImapAll.test_imap_all. hsteps.
  hmid (fun _ : unit => at_line all_lines 3).
  - destruct (_ && _); hsteps; hdone.
  - hsteps; hdone.
Qed.

Lemma basic_within :
  hoare (at_line basic_lines 0) TestImap.test_imap
        (fun _ => within basic_lines) (within basic_lines).
Proof. unfold TestImap.test_imap. hsteps; hdone. Qed.

Lemma e2e_within :
  hoare (at_line (e2e_lines None) 0) TestImapE2e.test_imap_read
        (fun _ p => exists count, within (e2e_lines count) p)
        (fun p => exists count, within (e2e_lines count) p).
Proof.
  unfold TestImapE2e.test_imap_read. hsteps.
  hmid (fun _ : unit => fun p =>
          exists count, at_line (e2e_lines count)
                                (match count with Some _ => 3 | None => 2 end) p).
  - match goal with
    | |- hoare _ (match ?found with _ => _ end) _ _ => destruct found as [group1|]
    end.
    + eapply hoare_bind with (R := fun _ => at_line (e2e_lines None) 2).
      * apply hoare_still; [apply int_still |].
        intros p H. exists None. now exists 2.
      * intros count.
        eapply hoare_weaken with
          (P' := at_line (e2e_lines (Some count)) 2)
          (Q' := fun _ => at_line (e2e_lines (Some count)) 3)
          (E' := within (e2e_lines (Some count))).
        -- hsteps; hdone.
        -- intros p H. exact H.
        -- intros _ p H. now exists (Some count).
        -- intros p H. now exists (Some count).
    + apply hoare_ret. intros p H. now exists None.
  - apply hoare_exists. intros [n|].
    + eapply hoare_weaken with (P' := at_line (e2e_lines (Some n)) 3)
                               (Q' := fun _ => within (e2e_lines (Some n)))
                               (E' := within (e2e_lines (Some n))).
      * hsteps; hdone.
      * auto.
      * intros _ p H. now exists (Some n).
      * intros p H. now exists (Some n).
    + eapply hoare_weaken with (P' := at_line (e2e_lines None) 2)
                               (Q' := fun _ => within (e2e_lines None))
                               (E' := within (e2e_lines None)).
      * hsteps; hdone.
      * auto.
      * intros _ p H. now exists None.
      * intros p H. now exists None.
Qed.

End TraceFacts.

(* ================================================================= *)
(** ** Tags *)

Module TagClaims.
Import PyStr PyStrFacts Spec Logic HoareFacts TraceFacts.

(** Every run of an IMAP script has sent a prefix of a list it follows. *)
Lemma run_follows (s : imap_script) (w : world) (rs : list reaction) :
  exists L k, follows s L /\
    sent_lines (trace (snd (run (program s) w rs))) = firstn k L.
Proof.
  destruct s; cbn [program follows].
  - pose proof (hoare_run _ _ _ _ w rs full_within eq_refl) as H.
    destruct (fst _); destruct H as [k H]; now exists full_lines, k.
  - pose proof (hoare_run _ _ _ _ w rs e2e_within eq_refl) as H.
    destruct (fst _); destruct H as [count [k H]];
      exists (e2e_lines count), k; split; eauto.
  - pose proof (hoare_run _ _ _ _ w rs all_within eq_refl) as H.
    destruct (fst _); destruct H as [k H]; now exists all_lines, k.
  - pose proof (hoare_run _ _ _ _ w rs basic_within eq_refl) as H.
    destruct (fst _); destruct H as [k H]; now exists basic_lines, k.
Qed.

Lemma follows_well_tagged (s : imap_script) (L : list string) :
  follows s L -> well_tagged (map tag_of L) = true.
Proof.
  destruct s; cbn [follows].
  - intros ->. reflexivity.
  - intros [[n|] ->]; reflexivity.
  - intros ->. reflexivity.
  - intros ->. reflexivity.
Qed.

Lemma ascending_firstn (l : list string) (k : nat) :
  ascending l = true -> ascending (firstn k l) = true.
Proof.
  revert k. induction l as [|a l IH]; intros [|k] H; try reflexivity.
  cbn [firstn]. destruct l as [|b l]; [destruct k; reflexivity |].
  cbn [ascending] in H. apply andb_true_iff in H. destruct H as [Hab Hl].
  specialize (IH k Hl). destruct k as [|k]; [reflexivity |].
  cbn [firstn ascending] in *. now rewrite Hab, IH.
Qed.

Lemma forallb_firstn {A} (f : A -> bool) (l : list A) (k : nat) :
  forallb f l = true -> forallb f (firstn k l) = true.
Proof.
  revert k. induction l as [|a l IH]; intros [|k] H; try reflexivity.
  cbn in *. apply andb_true_iff in H. destruct H as [-> H]. now apply IH.
Qed.

Lemma well_tagged_firstn (l : list string) (k : nat) :
  well_tagged l = true -> well_tagged (firstn k l) = true.
Proof.
  unfold well_tagged. rewrite !andb_true_iff. intros [[H1 H2] H3].
  repeat split.
  - destruct l, k; auto.
  - now apply ascending_firstn.
  - now apply forallb_firstn.
Qed.

Lemma ascending_step (l : list string) (n : nat) (prev cur : string) :
  ascending l = true ->
  nth_error l n = Some prev -> nth_error l (S n) = Some cur ->
  tag_step prev cur = true.
Proof.
  revert n. induction l as [|a l IH]; intros n H Hp Hc; [destruct n; discriminate |].
  destruct l as [|b l]; [destruct n as [|[|n]]; discriminate |].
  cbn [ascending] in H. apply andb_true_iff in H. destruct H as [Hab Hl].
  destruct n as [|n].
  - cbn in Hp, Hc. inversion Hp; inversion Hc; subst. exact Hab.
  - apply (IH n Hl); assumption.
Qed.

Lemma ascending_above (a : string) (l : list string) :
  ascending (a :: l) = true ->
  Forall (fun b => (tag_number a < tag_number b)%N) l.
Proof.
  revert a. induction l as [|b l IH]; intros a H; [constructor |].
  cbn [ascending] in H. apply andb_true_iff in H. destruct H as [Hab Hl].
  unfold tag_step in Hab. apply andb_true_iff in Hab. destruct Hab as [_ Hab].
  apply N.ltb_lt in Hab. constructor; [exact Hab |].
  eapply Forall_impl; [| exact (IH b Hl)].
  intros c Hc. eapply N.lt_trans; eassumption.
Qed.

Lemma ascending_NoDup (l : list string) : ascending l = true -> NoDup l.
Proof.
  induction l as [|a l IH]; intros H; constructor.
  - intros Hin. pose proof (ascending_above a l H) as F.
    rewrite Forall_forall in F. specialize (F a Hin).
    exact (N.lt_irrefl _ F).
  - apply IH. destruct l as [|b l]; [reflexivity |].
    cbn [ascending] in H. apply andb_true_iff in H. tauto.
Qed.

(** C4: on every run of every IMAP script (test-imap-full.py,
    test-imap-e2e.py, test-imap-all.py, test-imap.py), whatever the server
    does, the tag of each command sent is greater than the tag of the
    command before it, both as a string and as a number; every tag has the
    form A%03d, the first one is A001, and no tag is used twice. *)
Theorem C4_tags_strictly_increase (s : imap_script) (w : world)
    (rs : list reaction) :
  let sent := tags (trace (snd (run (program s) w rs))) in
  strictly_increasing sent /\
  (forall t, In t sent -> t = format_tag (tag_number t)) /\
  (forall t, hd_error sent = Some t -> t = "A001") /\
  NoDup sent.
Proof.
  intros sent.
  destruct (run_follows s w rs) as [L [k [HL Hk]]].
  assert (W : well_tagged sent = true).
  { unfold sent, tags. rewrite Hk, <- firstn_map.
    apply well_tagged_firstn, (follows_well_tagged s L HL). }
  unfold well_tagged in W. rewrite !andb_true_iff in W.
  destruct W as [[W1 W2] W3]. repeat split.
  - pose proof (ascending_step sent n prev cur W2 H H0) as T.
    unfold tag_step in T. apply andb_true_iff in T. tauto.
  - pose proof (ascending_step sent n prev cur W2 H H0) as T.
    unfold tag_step in T. apply andb_true_iff in T.
    apply N.ltb_lt. tauto.
  - intros t Ht. rewrite forallb_forall in W3. apply String.eqb_eq, W3, Ht.
  - intros t Ht. destruct sent as [|a l]; [discriminate |].
    inversion Ht; subst. now apply String.eqb_eq.
  - now apply ascending_NoDup.
Qed.

End TagClaims.

(* ================================================================= *)
(** ** Runs against a peer that talks *)

Module RunFacts.
Import PyStr PyStrFacts Spec Logic Outcomes.

Lemma bind_val {A B} (m : M A) (k : A -> M B) (p p' : proc) (a : A) :
  m p = (Val a, p') -> bind m k p = k a p'.
Proof. intros H. unfold bind. now rewrite H. Qed.

Lemma bind_assoc {A B C} (m : M A) (k1 : A -> M B) (k2 : B -> M C) (p : proc) :
  bind (bind m k1) k2 p = bind m (fun a => bind (k1 a) k2) p.
Proof. unfold bind. destruct (m p) as [[a|e|] p']; reflexivity. Qed.

(** *** ASCII text *)

Lemma ascii_only_app (a b : string) :
  ascii_only a = true -> ascii_only b = true -> ascii_only (a ++ b) = true.
Proof.
  unfold ascii_only. intros Ha Hb. induction a as [|c a IH]; [exact Hb |].
  cbn [append list_ascii_of_string forallb] in *.
  apply andb_true_iff in Ha. destruct Ha as [Hc Ha]. rewrite Hc. now apply IH.
Qed.

Lemma ascii_only_take (n : nat) (s : string) :
  ascii_only s = true -> ascii_only (take n s) = true.
Proof.
  unfold ascii_only. revert s. induction n as [|n IH]; intros [|c s] H; try reflexivity.
  cbn [take list_ascii_of_string forallb] in *.
  apply andb_true_iff in H. destruct H as [Hc H]. rewrite Hc. now apply IH.
Qed.

Lemma ascii_only_drop (n : nat) (s : string) :
  ascii_only s = true -> ascii_only (drop n s) = true.
Proof.
  unfold ascii_only. revert s. induction n as [|n IH]; intros [|c s] H; try exact H.
  cbn [drop]. cbn [list_ascii_of_string forallb] in H.
  apply andb_true_iff in H. now apply IH.
Qed.

Lemma ascii_only_empty : ascii_only "" = true.
Proof. reflexivity. Qed.

(** ASCII text decodes. *)
Lemma utf8_ascii (s : string) : ascii_only s = true -> utf8 s = true.
Proof.
  unfold ascii_only. induction s as [|c s IH]; [reflexivity |].
  cbn [list_ascii_of_string forallb utf8]. intros H.
  apply andb_true_iff in H. destruct H as [Hc H]. rewrite Hc. now apply IH.
Qed.

Lemma wordy_ascii (s : string) : wordy s = true -> ascii_only s = true.
Proof. unfold wordy. intros H. apply andb_true_iff in H. apply H. Qed.

Lemma wordy_app (a b : string) :
  ascii_only a = true -> wordy b = true -> wordy (a ++ b) = true.
Proof.
  unfold wordy. intros Ha Hb. apply andb_true_iff in Hb. destruct Hb as [Hb Hn].
  apply andb_true_iff. split; [now apply ascii_only_app |].
  destruct a; [exact Hn | reflexivity].
Qed.

(** *** The socket calls, when the peer talks *)

Lemma connect_ok (h : string) (n : nat) (w : world) (buf : string)
    (rs : list reaction) (tr : list event) :
  accepts w = true ->
  connect h n (mkProc w buf rs tr)
    = (Val tt, mkProc w (buf ++ greeting w) rs (tr ++ [EvConnect h n])).
Proof. intros H. unfold connect. cbn [env]. now rewrite H. Qed.

Lemma recv_ok (n : nat) (w : world) (buf : string) (rs : list reaction)
    (tr : list event) :
  wordy buf = true ->
  recv n (mkProc w buf rs tr)
    = (Val (take n buf), mkProc w (drop n buf) rs (tr ++ [EvRecv n (take n buf)])).
Proof.
  intros H. unfold recv. cbn [env inbuf reactions trace].
  rewrite (utf8_ascii (take n buf)) by (apply ascii_only_take, wordy_ascii, H).
  destruct buf; [discriminate H | reflexivity].
Qed.

(** Shows a text built from the greeting and the replies to be ASCII, or
    to be some ASCII text. *)
Ltac plain_text :=
  repeat first [ assumption
               | apply ascii_only_empty
               | apply ascii_only_app
               | apply ascii_only_drop
               | apply ascii_only_take
               | apply wordy_ascii; assumption ].

Ltac some_text := first [ assumption | apply wordy_app; plain_text ].

(** One statement of a script, on an explicit state. *)
Ltac step_with tac :=
  first [ rewrite bind_assoc
        | erewrite bind_val
            by (lazymatch goal with
                | |- recv _ _ = _ => apply recv_ok; some_text
                | |- connect _ _ _ = _ => apply connect_ok; assumption
                | |- _ => first [ tac | reflexivity ]
                end) ];
  cbn [env inbuf reactions trace app].

Ltac step := step_with fail.

Section Exchange.
Variables (c : string) (w : world) (buf b : string) (rs : list reaction)
          (tr : list event).
Hypothesis Hbuf : ascii_only buf = true.
Hypothesis Hb : wordy b = true.

Lemma full_send_ok :
  TestImapFull.send_command c (mkProc w buf (Reply b :: rs) tr)
    = (Val (take 8192 (buf ++ b)),
       mkProc w (drop 8192 (buf ++ b)) rs
              (tr ++ [EvPrint ("→ " ++ c); EvSend (c ++ crlf); EvSleep 300;
                      EvRecv 8192 (take 8192 (buf ++ b));
                      EvPrint ("← " ++ take 8192 (buf ++ b))])).
Proof.
  unfold TestImapFull.send_command. repeat step.
  unfold ret. now rewrite <- !List.app_assoc.
Qed.

Lemma e2e_send_ok :
  TestImapE2e.send_command c (mkProc w buf (Reply b :: rs) tr)
    = (Val (take 8192 (buf ++ b)),
       mkProc w (drop 8192 (buf ++ b)) rs
              (tr ++ [EvPrint ("→ " ++ c); EvSend (c ++ crlf); EvSleep 300;
                      EvRecv 8192 (take 8192 (buf ++ b));
                      EvPrint ("← " ++ take 8192 (buf ++ b))])).
Proof.
  unfold TestImapE2e.send_command. repeat step.
  unfold ret. now rewrite <- !List.app_assoc.
Qed.

Lemma all_send_ok :
  TestImapAll.send_command c (mkProc w buf (Reply b :: rs) tr)
    = (Val (take 16384 (buf ++ b)),
       mkProc w (drop 16384 (buf ++ b)) rs
              (tr ++ [EvPrint ("→ " ++ c); EvSend (c ++ crlf); EvSleep 300;
                      EvRecv 16384 (take 16384 (buf ++ b))])).
Proof.
  unfold TestImapAll.send_command. repeat step.
  unfold ret. now rewrite <- !List.app_assoc.
Qed.

Lemma basic_send_ok :
  TestImap.send_command c (mkProc w buf (Reply b :: rs) tr)
    = (Val (take 4096 (buf ++ b)),
       mkProc w (drop 4096 (buf ++ b)) rs
              (tr ++ [EvPrint ("→ " ++ c); EvSend (c ++ crlf); EvSleep 200;
                      EvRecv 4096 (take 4096 (buf ++ b));
                      EvPrint ("← " ++ take 4096 (buf ++ b))])).
Proof.
  unfold TestImap.send_command. repeat step.
  unfold ret. now rewrite <- !List.app_assoc.
Qed.

Lemma smtp_send_ok :
  SendSmtpRaw.send_command c (mkProc w buf (Reply b :: rs) tr)
    = (Val (take 4096 (buf ++ b)),
       mkProc w (drop 4096 (buf ++ b)) rs
              (tr ++ [EvPrint ("→ " ++ c); EvSend (c ++ crlf); EvSleep 200;
                      EvRecv 4096 (take 4096 (buf ++ b));
                      EvPrint ("← " ++ strip (take 4096 (buf ++ b)))])).
Proof.
  unfold SendSmtpRaw.send_command. repeat step.
  unfold ret. now rewrite <- !List.app_assoc.
Qed.
End Exchange.

(** One exchange. *)
Ltac exchange :=
  lazymatch goal with
  | |- TestImapFull.send_command _ _ = _ => apply full_send_ok
  | |- TestImapE2e.send_command _ _ = _ => apply e2e_send_ok
  | |- TestImapAll.send_command _ _ = _ => apply all_send_ok
  | |- TestImap.send_command _ _ = _ => apply basic_send_ok
  | |- SendSmtpRaw.send_command _ _ = _ => apply smtp_send_ok
  end; [plain_text | some_text].

(** Runs the statements of a script up to the next test, and names what
    was read on the way. *)
Ltac name_reads :=
  repeat match goal with
         | |- context [drop ?n ?x] =>
             let A := fresh "A" in
             let B := fresh "A" in
             assert (A : ascii_only (take n x) = true) by plain_text;
             assert (B : ascii_only (drop n x) = true) by plain_text;
             revert A B; generalize (take n x), (drop n x); intros ? ? ? ?
         end.

Ltac forth := repeat (step_with exchange; name_reads).

(** A peer that talks, spelled out. *)
Lemma talks_accepts n w rs : talks n w rs = true -> accepts w = true.
Proof. unfold talks. rewrite !andb_true_iff. tauto. Qed.

Lemma talks_greets n w rs : talks n w rs = true -> wordy (greeting w) = true.
Proof. unfold talks. rewrite !andb_true_iff. tauto. Qed.

Lemma talks_first n w rs :
  talks (S n) w rs = true ->
  exists b rs', rs = Reply b :: rs' /\ wordy b = true /\ talks n w rs' = true.
Proof.
  unfold talks. rewrite !andb_true_iff. intros [[[Ha Hg] Hl] Hf].
  destruct rs as [|[b|] rs']; cbn in Hl, Hf; try discriminate.
  apply andb_true_iff in Hf. destruct Hf as [Hb Hf].
  exists b, rs'. rewrite !andb_true_iff. repeat split; assumption.
Qed.

(** Takes the first replies of a peer that talks out of its reactions. *)
Ltac hear H :=
  let Ha := fresh "Ha" in
  let Hg := fresh "Hg" in
  pose proof (talks_accepts _ _ _ H) as Ha;
  pose proof (talks_greets _ _ _ H) as Hg;
  repeat match type of H with
         | talks (S _) _ _ = true =>
             let b := fresh "b" in
             let Hb := fresh "Hb" in
             apply talks_first in H; destruct H as [b [? [-> [Hb H]]]]
         end;
  clear H.

(** Sets what is to be shown of a run apart from the run itself. *)
Ltac about_run :=
  match goal with
  | |- context [run ?m ?w ?r] => pattern (run m w r)
  end;
  match goal with
  | |- ?F _ => let verdict := fresh "verdict" in set (verdict := F)
  end;
  unfold run, boot.

End RunFacts.

(* ================================================================= *)
(** ** The invalid-credentials scenario and the closing of sessions *)

Module SessionClaims.
Import PyStr PyStrFacts Spec Logic HoareFacts TraceFacts TagClaims Samples.
Import Outcomes RunFacts.

(** C5, as stated, fails: against a server that answers the LOGIN with the
    wrong password by OK, test-imap.py runs exactly as against one that
    answers NO: it sends the same four commands, none of them a SELECT, ends
    with the same closing line and exits with status 0. *)
Lemma C5_counterexample :
  exit_status (run TestImap.test_imap imap_world wrong_password_accepted) = Some 0 /\
  exit_status (run TestImap.test_imap imap_world wrong_password_refused) = Some 0 /\
  sent_lines (trace (snd (run TestImap.test_imap imap_world wrong_password_accepted)))
    = basic_lines /\
  sent_lines (trace (snd (run TestImap.test_imap imap_world wrong_password_refused)))
    = basic_lines /\
  existsb (contains "SELECT") basic_lines = false /\
  said (nl ++ "=== Tests completed ===")
       (trace (snd (run TestImap.test_imap imap_world wrong_password_accepted))) = true.
Proof. repeat split; vm_compute; reflexivity. Qed.

Lemma In_firstn {A} (k : nat) (l : list A) (x : A) : In x (firstn k l) -> In x l.
Proof.
  intros H. rewrite <- (firstn_skipn k l). apply in_or_app. now left.
Qed.

(** The end of a run: the state is explicit, what is said of it holds by
    evaluation. *)
Ltac at_end :=
  cbn [print log];
  match goal with |- ?F _ => subst F end;
  cbn beta; cbn [fst snd trace app];
  repeat split; reflexivity.

(** Against a peer that talks, test-imap.py goes through its four commands
    whatever it is told. *)
Lemma basic_completes (w : world) (rs : list reaction) :
  talks 4 w rs = true ->
  fst (run TestImap.test_imap w rs) = Val tt /\
  sent_lines (trace (snd (run TestImap.test_imap w rs))) = basic_lines /\
  closed (trace (snd (run TestImap.test_imap w rs))) = true.
Proof.
  intros H. hear H.
  about_run. unfold TestImap.test_imap. forth. at_end.
Qed.

(** C5, amended: in the invalid-credentials scenario (test-imap.py) the
    commands sent are a prefix of CAPABILITY, NOOP, LOGIN test@example.com
    wrongpass, LOGOUT; no SELECT is ever sent and no response is checked:
    whenever the server accepts the connection, greets, and answers each
    command with some ASCII text, whatever that text says, all four
    commands are sent, the socket is closed and the script returns
    normally. *)
Theorem C5_invalid_login_unchecked (w : world) (rs : list reaction) :
  (exists k, sent_lines (trace (snd (run TestImap.test_imap w rs)))
             = firstn k basic_lines) /\
  (forall line, In line (sent_lines (trace (snd (run TestImap.test_imap w rs)))) ->
                contains "SELECT" line = false) /\
  (talks 4 w rs = true ->
   fst (run TestImap.test_imap w rs) = Val tt /\
   sent_lines (trace (snd (run TestImap.test_imap w rs))) = basic_lines /\
   closed (trace (snd (run TestImap.test_imap w rs))) = true).
Proof.
  destruct (run_follows Basic w rs) as [L [k [HL Hk]]].
  cbn [follows program] in HL, Hk. subst L.
  split; [now exists k | split].
  - intros line Hin. rewrite Hk in Hin. apply In_firstn in Hin.
    cbn in Hin. repeat (destruct Hin as [<- | Hin]; [reflexivity |]).
    destruct Hin.
  - apply basic_completes.
Qed.

(** The amended C5 at a server that accepts the wrong password. *)
Lemma C5_invalid_login_unchecked_witness :
  fst (run TestImap.test_imap imap_world wrong_password_accepted) = Val tt /\
  sent_lines (trace (snd (run TestImap.test_imap imap_world wrong_password_accepted)))
    = basic_lines /\
  closed (trace (snd (run TestImap.test_imap imap_world wrong_password_accepted))) = true.
Proof.
  apply (C5_invalid_login_unchecked imap_world wrong_password_accepted).
  reflexivity.
Defined.

(** C8 fails on the code: when the server refuses the LOGIN,
    test-imap-full.py returns at once, from a connection it has opened and
    never closes. *)
Theorem C8_socket_left_open_on_failed_login :
  fst (run TestImapFull.test_complete_flow imap_world [Reply login_refused]) = Val tt /\
  opened (trace (snd (run TestImapFull.test_complete_flow imap_world
                        [Reply login_refused]))) = true /\
  closed (trace (snd (run TestImapFull.test_complete_flow imap_world
                        [Reply login_refused]))) = false /\
  said "❌ LOGIN failed!"
       (trace (snd (run TestImapFull.test_complete_flow imap_world
                      [Reply login_refused]))) = true.
Proof. repeat split; vm_compute; reflexivity. Qed.


End SessionClaims.

(* ================================================================= *)
(** ** The mailbox inspector and the SPF/DKIM verdict (test_spf_dkim.py) *)

Module InspectorFacts.
Import PyStr PyStrFacts Spec Logic HoareFacts TraceFacts Samples.
Import TestSpfDkim.

(** The latest entry is one of the entries, and none is more recent. *)
Lemma max_ctime_In (best : entry) (xs : list entry) :
  In (max_ctime best xs) (best :: xs).
Proof.
  revert best. induction xs as [|y ys IH]; intros best; [now left |].
  cbn [max_ctime]. specialize (IH (if (ctime best <? ctime y)%N then y else best)).
  destruct IH as [IH | IH].
  - rewrite <- IH. destruct (ctime best <? ctime y)%N; [right; now left | now left].
  - right. now right.
Qed.

Lemma max_ctime_ge_best (best : entry) (xs : list entry) :
  (ctime best <= ctime (max_ctime best xs))%N.
Proof.
  revert best. induction xs as [|y ys IH]; intros best; [apply N.le_refl |].
  cbn [max_ctime]. specialize (IH (if (ctime best <? ctime y)%N then y else best)).
  destruct (ctime best <? ctime y)%N eqn:C; [| exact IH].
  apply N.ltb_lt in C. lia.
Qed.

Lemma max_ctime_latest (best : entry) (xs : list entry) (e : entry) :
  In e (best :: xs) -> (ctime e <= ctime (max_ctime best xs))%N.
Proof.
  revert best. induction xs as [|y ys IH]; intros best H.
  - destruct H as [<- | []]. apply N.le_refl.
  - cbn [max_ctime].
    pose proof (max_ctime_ge_best (if (ctime best <? ctime y)%N then y else best) ys) as G.
    destruct H as [H | [H | H]].
    + rewrite <- H.
      destruct (ctime best <? ctime y)%N eqn:C; [apply N.ltb_lt in C; lia | exact G].
    + rewrite <- H.
      destruct (ctime best <? ctime y)%N eqn:C; [exact G | apply N.ltb_ge in C; lia].
    + apply IH. now right.
Qed.

(** What [latestMessage] returns, by the directory it settles on. *)
Lemma latestMessage_in (p : proc) (dir : string) :
  (dir = primary_root /\ fs (env p) primary_root <> Absent) \/
  (dir = alternate_root /\ fs (env p) primary_root = Absent) ->
  fst (latestMessage p) =
    match fs (env p) dir with
    | Absent => Val None
    | _ => match listing (env p) dir with
           | [] => Val None
           | e :: es => match text (max_ctime e es) with
                        | Some content => Val (Some content)
                        | None => Err ReadError
                        end
           end
    end.
Proof.
  unfold latestMessage, listing, bind, path_exists, glob_star, read_text, print, log,
    ret, raise.
  intros [[-> Hp] | [-> Hp]].
  - destruct (fs (env p) primary_root) as [| |entries] eqn:F; [now elim Hp | |];
      cbn -[basename primary_root alternate_root append];
      repeat (rewrite F; cbn -[basename primary_root alternate_root append]);
      [reflexivity |].
    destruct (filter _ entries) as [|e es]; [reflexivity |].
    cbn -[basename primary_root alternate_root append].
    destruct (text (max_ctime e es)); reflexivity.
  - rewrite Hp. cbn -[basename primary_root alternate_root append].
    destruct (fs (env p) alternate_root) as [| |entries] eqn:F;
      cbn -[basename primary_root alternate_root append];
      repeat (rewrite F; cbn -[basename primary_root alternate_root append]);
      try reflexivity.
    destruct (filter _ entries) as [|e es]; [reflexivity |].
    cbn -[basename primary_root alternate_root append].
    destruct (text (max_ctime e es)); reflexivity.
Qed.


(** C6: [latestMessage] looks under the primary root, and under the
    alternate root exactly when the primary root does not exist; it fails
    with not-found exactly when that directory is absent or lists nothing;
    otherwise it selects an entry of the listing whose creation time no
    listed entry exceeds, and returns its text (or raises when the entry
    cannot be read). *)
Theorem C6_latestMessage (p : proc) :
  exists dir,
    ((dir = primary_root /\ fs (env p) primary_root <> Absent) \/
     (dir = alternate_root /\ fs (env p) primary_root = Absent)) /\
    (fst (latestMessage p) = Val None <->
     fs (env p) dir = Absent \/ listing (env p) dir = []) /\
    (listing (env p) dir <> [] ->
     exists e,
       In e (listing (env p) dir) /\
       (forall e', In e' (listing (env p) dir) -> (ctime e' <= ctime e)%N) /\
       fst (latestMessage p) = match text e with
                               | Some content => Val (Some content)
                               | None => Err ReadError
                               end).
Proof.
  assert (D : exists dir,
             (dir = primary_root /\ fs (env p) primary_root <> Absent) \/
             (dir = alternate_root /\ fs (env p) primary_root = Absent)).
  { destruct (fs (env p) primary_root) eqn:F.
    - exists alternate_root. right. split; reflexivity.
    - exists primary_root. left. split; [reflexivity | congruence].
    - exists primary_root. left. split; [reflexivity | congruence]. }
  destruct D as [dir D]. exists dir. split; [exact D |].
  rewrite (latestMessage_in p dir D). split.
  - split.
    + intros H. destruct (fs (env p) dir) eqn:F; [now left | |].
      * right. unfold listing. now rewrite F.
      * right. destruct (listing (env p) dir) as [|e es]; [reflexivity |].
        destruct (text (max_ctime e es)); discriminate.
    + intros [H | H].
      * now rewrite H.
      * rewrite H. destruct (fs (env p) dir); reflexivity.
  - intros N. destruct (listing (env p) dir) as [|e es] eqn:L; [now elim N |].
    exists (max_ctime e es). split; [apply max_ctime_In | split].
    + intros e' He'. now apply max_ctime_latest.
    + destruct (fs (env p) dir) eqn:F; [| reflexivity | reflexivity].
      unfold listing in L. rewrite F in L. discriminate.
Qed.

(** The amended claim at a mailbox with two messages: the later one is read. *)
Lemma C6_latestMessage_witness :
  fst (latestMessage (boot mail_world [])) = Val (Some message_without_results).
Proof.
  destruct (C6_latestMessage (boot mail_world [])) as [dir [D [_ H]]].
  destruct D as [[-> _] | [_ D]]; [| discriminate D].
  destruct (H ltac:(discriminate)) as [e [He [Hmax ->]]].
  cbn in He. destruct He as [<- | [<- | []]].
  - specialize (Hmax _ (or_intror (or_introl eq_refl))). cbn in Hmax. lia.
  - reflexivity.
Defined.

End InspectorFacts.

(* ================================================================= *)
(** ** Verdicts and exit status *)

Module VerdictClaims.
Import PyStr PyStrFacts Spec Logic HoareFacts TraceFacts Samples.
Import Outcomes RunFacts InspectorFacts SessionClaims.
Import TestSpfDkim.

Lemma always_print l E : hoare always (print l) (fun _ => always) E.
Proof. intros p _. exact I. Qed.

Lemma always_sleep n E : hoare always (sleep n) (fun _ => always) E.
Proof. intros p _. exact I. Qed.

Lemma always_for_each {A} (xs : list A) (body : A -> M unit) E :
  (forall x, hoare always (body x) (fun _ => always) E) ->
  hoare always (for_each xs body) (fun _ => always) E.
Proof.
  intros H. induction xs as [|x xs IH]; cbn [for_each].
  - apply hoare_ret. auto.
  - eapply hoare_bind; [apply H | intros ?; exact IH].
Qed.

#[export] Hint Resolve always_print always_sleep : hoare.

(** The verdict of [inspect] is the presence of the header text. *)
Lemma inspect_verdict (content : string) :
  hoare always (inspect content)
        (fun found _ => found = contains "Authentication-Results:" content)
        (fun _ => False).
Proof.
  unfold inspect. destruct (contains "Authentication-Results:" content).
  - hstep.
    eapply hoare_bind with (R := fun _ => always); [| intros ?].
    + apply always_for_each. intros line.
      destruct (_ || _); [apply always_print | apply hoare_ret; auto].
    + hsteps. apply hoare_ret. reflexivity.
  - hsteps.
    eapply hoare_bind with (R := fun _ => always); [| intros ?].
    + apply always_for_each. intros line. apply always_print.
    + apply hoare_ret. reflexivity.
Qed.

Lemma inspect_result (content : string) (p : proc) :
  fst (inspect content p) = Val (contains "Authentication-Results:" content).
Proof.
  pose proof (inspect_verdict content p I) as H.
  destruct (inspect content p) as [[found|e|] p']; [now subst | destruct H | destruct H].
Qed.

Lemma check_unfold (p : proc) :
  fst (check_authentication_header p) =
    match latestMessage (after_wait p) with
    | (Val (Some content), p1) => fst (inspect content p1)
    | (Val None, _) => Val false
    | (Err e, _) => Err e
    | (Hang, _) => Hang
    end.
Proof.
  unfold check_authentication_header, after_wait, logged.
  unfold bind at 1. cbn [print log]. unfold bind at 1. cbn [sleep log].
  cbn [env inbuf reactions trace]. unfold bind at 1.
  destruct (latestMessage _) as [[[content|]|e|] p1]; reflexivity.
Qed.

(** The statements of [inspect] print and return. *)
Lemma for_each_prints {A} (xs : list A) (cond : A -> bool) (f : A -> string)
    (p : proc) :
  exists t, for_each xs (fun x => if cond x then print (f x) else ret tt) p
            = (Val tt, mkProc (env p) (inbuf p) (reactions p) (trace p ++ t)) /\
            forallb is_print t = true.
Proof.
  revert p. induction xs as [|x xs IH]; intros p; cbn [for_each].
  - exists []. rewrite app_nil_r. now destruct p.
  - unfold bind. destruct (cond x).
    + cbn [print log]. destruct (IH (mkProc (env p) (inbuf p) (reactions p)
                                            (trace p ++ [EvPrint (f x)])))
        as [t [E Ht]].
      exists (EvPrint (f x) :: t). cbn [env inbuf reactions trace] in E.
      rewrite E, <- List.app_assoc. now split.
    + unfold ret. destruct (IH p) as [t [E Ht]]. exists t. now split.
Qed.

Lemma printed_app (t t' : list event) : printed (t ++ t') = (printed t ++ printed t')%list.
Proof. unfold printed. apply flat_map_app. Qed.

(** What [inspect] reports of a message that has the header: whether
    [spf=] and whether [dkim=] occur in the whole content, whatever the
    case of their letters. *)
Lemma inspect_reports (content : string) (p : proc) :
  contains "Authentication-Results:" content = true ->
  exists pre,
    printed (trace (snd (inspect content p)))
      = (pre ++ [results_line;
                 spf_line (contains "spf=" (lower content));
                 dkim_line (contains "dkim=" (lower content))])%list.
Proof.
  intros H. unfold inspect. rewrite H. unfold bind at 1. cbn [print log].
  unfold bind at 1.
  match goal with
  | |- context [for_each ?xs (fun line => if @?c line then print (@?f line) else ret tt) ?q] =>
      destruct (for_each_prints xs c f q) as [t [E _]]
  end.
  rewrite E. unfold bind, print, log, ret. cbn [snd trace env inbuf reactions].
  rewrite !printed_app. cbn [printed flat_map app].
  match goal with
  | |- exists pre, (((?X ++ _) ++ _) ++ _)%list = _ => exists X
  end.
  now rewrite <- !List.app_assoc.
Qed.

(** C9, as stated, fails: the latest message of the mailbox has the header
    with neither [spf=] nor [dkim=] in it, and the inspection step succeeds
    and the harness exits with status 0; and a message whose body merely
    names the header, on no line that begins with it, passes as well. *)
Lemma C9_counterexample :
  fst (check_authentication_header (boot mail_world [])) = Val true /\
  contains "spf=" (lower message_without_results) = false /\
  contains "dkim=" (lower message_without_results) = false /\
  exit_code (main (boot mail_world [])) = Some 0 /\
  fst (inspect message_naming_header (boot mail_world [])) = Val true /\
  existsb (startswith "Authentication-Results:") (lines message_naming_header) = false.
Proof. repeat split; vm_compute; reflexivity. Qed.

(** C9, amended: the inspection step reports success exactly when the latest
    file of the recipient's mailbox directory contains the text
    [Authentication-Results:] anywhere; so it does whenever a line begins
    with it.  Of a message that has it, the step goes on to report, in its
    last two lines, whether [spf=] and whether [dkim=] occur anywhere in
    the content, in any case of their letters; what it finds there does not
    change the verdict. *)
Theorem C9_verdict_is_header_presence (p : proc) :
  (forall content,
     fst (inspect content p) = Val (contains "Authentication-Results:" content)) /\
  (fst (check_authentication_header p) = Val true <->
   exists content,
     fst (latestMessage (after_wait p)) = Val (Some content) /\
     contains "Authentication-Results:" content = true) /\
  (forall content line,
     In line (lines content) ->
     startswith "Authentication-Results:" line = true ->
     fst (inspect content p) = Val true) /\
  (forall content,
     contains "Authentication-Results:" content = true ->
     exists pre,
       printed (trace (snd (inspect content p)))
         = (pre ++ [results_line;
                    spf_line (contains "spf=" (lower content));
                    dkim_line (contains "dkim=" (lower content))])%list).
Proof.
  split; [intros content; apply inspect_result | split; [| split]].
  - rewrite check_unfold.
    destruct (latestMessage (after_wait p)) as [[[content|]|e|] p1]; cbn [fst].
    + rewrite inspect_result. split.
      * intros H. exists content. split; [reflexivity | congruence].
      * intros [c [H1 H2]]. congruence.
    + split; [discriminate | intros [c [H _]]; discriminate].
    + split; [discriminate | intros [c [H _]]; discriminate].
    + split; [discriminate | intros [c [H _]]; discriminate].
  - intros content line Hin Hs. rewrite inspect_result. f_equal.
    apply (contains_line _ _ _ _ Hin). now apply contains_of_startswith.
  - intros content. apply inspect_reports.
Qed.

(** The amended C9 on a message whose header gives the SPF result in
    capitals and no DKIM result: SPF is reported as found, DKIM as missing. *)
Lemma C9_verdict_is_header_presence_witness :
  exists pre,
    printed (trace (snd (inspect message_with_spf (boot mail_world []))))
      = (pre ++ [results_line; spf_line true; dkim_line false])%list.
Proof.
  apply (C9_verdict_is_header_presence (boot mail_world [])).
  reflexivity.
Defined.











End VerdictClaims.

(* ================================================================= *)
(** ** The round trip check (send-smtp-raw.py, test-imap-e2e.py) *)

Module RoundTripFacts.
Import PyStr PyStrFacts Spec Logic HoareFacts TraceFacts Samples.
Import Outcomes RunFacts.

Lemma said_snoc (l : string) (t : list event) (e : event) :
  said l (t ++ [e]) =
  said l t || match e with EvPrint x => String.eqb l x | _ => false end.
Proof.
  unfold said, printed. rewrite flat_map_app, existsb_app. f_equal.
  destruct e; cbn; try reflexivity. apply orb_false_r.
Qed.

Lemma no_fetch_snoc (t : list event) (e : event) :
  no_fetch (t ++ [e]) =
  no_fetch t && match e with
                | EvSend d => negb (startswith "A003 FETCH" d)
                | _ => true
                end.
Proof.
  unfold no_fetch. rewrite sent_lines_snoc, forallb_app. f_equal.
  destruct e; cbn [sent_lines flat_map app forallb]; try reflexivity.
  apply andb_true_r.
Qed.

Lemma first_read_app (t t' : list event) (r : string) :
  first_read t = Some r -> first_read (t ++ t') = Some r.
Proof.
  induction t as [|e t IH]; [discriminate |].
  destruct e; cbn; auto.
Qed.

(** Once the response to a command has been read, it stays the response. *)
Lemma response_to_app (c : string) (t t' : list event) (r : string) :
  response_to c t = Some r -> response_to c (t ++ t') = Some r.
Proof.
  induction t as [|e t IH]; [discriminate |].
  destruct e; cbn [app response_to]; auto.
  destruct (startswith c data); [apply first_read_app | exact IH].
Qed.

(** Before the command is sent, the response is that of what follows. *)
Lemma response_to_later (t t' : list event) :
  no_fetch t = true -> response_to "A003 FETCH" (t ++ t') = response_to "A003 FETCH" t'.
Proof.
  induction t as [|e t IH]; [reflexivity |].
  unfold no_fetch in *. intros H.
  destruct e; cbn [sent_lines flat_map app forallb response_to] in H |- *;
    try (apply IH; exact H).
  apply andb_true_iff in H. destruct H as [Hd H].
  apply negb_true_iff in Hd. rewrite Hd. apply IH. exact H.
Qed.

Lemma phase_snoc o b1 b2 (p : proc) (w : world) (buf : string)
    (rs : list reaction) (e : event) :
  neutral e -> phase o b1 b2 p ->
  phase o b1 b2 (mkProc w buf rs (trace p ++ [e])).
Proof.
  intros N [H1 [H2 H3]]. unfold phase. cbn [trace]. repeat split.
  - destruct o as [r|]; [now apply response_to_app |].
    rewrite no_fetch_snoc, H1. destruct e; try reflexivity.
    cbn in N. now rewrite N.
  - rewrite said_snoc, H2. destruct e; try apply orb_false_r.
    destruct N as [N _]. rewrite N. apply orb_false_r.
  - rewrite said_snoc, H3. destruct e; try apply orb_false_r.
    destruct N as [_ N]. rewrite N. apply orb_false_r.
Qed.

Lemma phase_log o b1 b2 e E :
  neutral e -> hoare (phase o b1 b2) (log e) (fun _ => phase o b1 b2) E.
Proof. intros N p H. now apply phase_snoc. Qed.

Lemma phase_print o b1 b2 l E :
  String.eqb success_line l = false -> String.eqb confirmed_line l = false ->
  hoare (phase o b1 b2) (print l) (fun _ => phase o b1 b2) E.
Proof. intros H1 H2. apply phase_log. now split. Qed.

Lemma phase_sleep o b1 b2 n E :
  hoare (phase o b1 b2) (sleep n) (fun _ => phase o b1 b2) E.
Proof. now apply phase_log. Qed.

Lemma phase_close o b1 b2 E :
  hoare (phase o b1 b2) close (fun _ => phase o b1 b2) E.
Proof. now apply phase_log. Qed.

Lemma phase_recv o b1 b2 n E :
  leads (phase o b1 b2) E ->
  hoare (phase o b1 b2) (recv n) (fun _ => phase o b1 b2) E.
Proof.
  intros HE p H. unfold recv.
  destruct (inbuf p); [apply HE; now apply phase_snoc |].
  destruct (utf8 _); [| apply HE]; now apply phase_snoc.
Qed.

Lemma phase_connect o b1 b2 h n E :
  leads (phase o b1 b2) E ->
  hoare (phase o b1 b2) (connect h n) (fun _ => phase o b1 b2) E.
Proof.
  intros HE p H. unfold connect. destruct (accepts (env p)); [| now apply HE].
  now apply phase_snoc.
Qed.

Lemma phase_sendall o b1 b2 d E :
  startswith "A003 FETCH" d = false ->
  leads (phase o b1 b2) E ->
  hoare (phase o b1 b2) (sendall d) (fun _ => phase o b1 b2) E.
Proof.
  intros Hd HE p H. unfold sendall.
  destruct (reactions p) as [|[b|] rs]; try (now apply phase_snoc).
  apply HE. destruct H as [H1 [H2 H3]]. repeat split; assumption.
Qed.

Lemma phase_print_success o b2 E :
  hoare (phase o false b2) (print success_line) (fun _ => phase o true b2) E.
Proof.
  intros p [H1 [H2 H3]]. unfold phase. cbn [print log fst snd trace]. repeat split.
  - destruct o as [r|]; [now apply response_to_app |].
    now rewrite no_fetch_snoc, H1.
  - rewrite said_snoc, String.eqb_refl. apply orb_true_r.
  - rewrite said_snoc, H3. apply orb_false_r.
Qed.

Lemma phase_print_confirmed o b1 E :
  hoare (phase o b1 false) (print confirmed_line) (fun _ => phase o b1 true) E.
Proof.
  intros p [H1 [H2 H3]]. unfold phase. cbn [print log fst snd trace]. repeat split.
  - destruct o as [r|]; [now apply response_to_app |].
    now rewrite no_fetch_snoc, H1.
  - rewrite said_snoc, H2. apply orb_false_r.
  - rewrite said_snoc, String.eqb_refl. apply orb_true_r.
Qed.

#[export] Hint Resolve phase_print phase_sleep phase_close phase_recv phase_connect
  phase_sendall : hoare.
#[export] Hint Extern 1 (String.eqb _ _ = false) => reflexivity : hoare.
#[export] Hint Extern 1 (startswith _ _ = false) => reflexivity : hoare.

(** A command other than the FETCH. *)
Lemma phase_send_e2e o b1 b2 cmd E :
  startswith "A003 FETCH" (cmd ++ crlf) = false ->
  leads (phase o b1 b2) E ->
  hoare (phase o b1 b2) (TestImapE2e.send_command cmd) (fun _ => phase o b1 b2) E.
Proof. intros H HE. unfold TestImapE2e.send_command. hsteps. hdone. Qed.

#[export] Hint Resolve phase_send_e2e : hoare.

Lemma leads_concluded_start : leads (phase None false false) concluded.
Proof.
  intros p H. left. exists None, false, false. split; [exact H | now split].
Qed.

#[export] Hint Resolve leads_concluded_start : hoare.

(** The FETCH: what its one read returns is the response to it; when the
    read does not return or its bytes do not decode, no response was read. *)
Lemma phase_fetch cmd :
  startswith "A003 FETCH" (cmd ++ crlf) = true ->
  String.eqb success_line ("→ " ++ cmd) = false ->
  String.eqb confirmed_line ("→ " ++ cmd) = false ->
  hoare (phase None false false) (TestImapE2e.send_command cmd)
        (fun r => phase (Some r) false false) concluded.
Proof.
  intros Hc Hs1 Hs2 p H.
  assert (H0 : phase None false false (logged (EvPrint ("→ " ++ cmd)) p)).
  { apply phase_snoc; [now split | exact H]. }
  pose proof H0 as [N _]. cbn [logged trace] in N.
  pose proof H as [_ [S1 S2]].
  assert (Q : forall e, said success_line
                          (((trace p ++ [EvPrint ("→ " ++ cmd)]) ++ [EvSend (cmd ++ crlf)])
                           ++ [EvSleep 300] ++ [e]) = false /\
                        said confirmed_line
                          (((trace p ++ [EvPrint ("→ " ++ cmd)]) ++ [EvSend (cmd ++ crlf)])
                           ++ [EvSleep 300] ++ [e]) = false \/
                        exists l, e = EvPrint l).
  { intros e. destruct e; try (right; now eexists); left;
      rewrite List.app_assoc, !said_snoc, S1, S2, Hs1, Hs2; now split. }
  assert (U : forall w buf rs e,
             (forall n d, e <> EvRecv n d) -> (forall l, e <> EvPrint l) ->
             concluded
               (mkProc w buf rs
                  ((((trace p ++ [EvPrint ("→ " ++ cmd)]) ++ [EvSend (cmd ++ crlf)])
                    ++ [EvSleep 300]) ++ [e]))).
  { intros w buf rs e Nr Np. right. unfold unanswered. cbn [trace].
    destruct (Q e) as [[Q1 Q2] | [l ->]]; [| now elim (Np l)].
    rewrite <- !List.app_assoc in *. repeat split; try assumption.
    rewrite List.app_assoc. rewrite (response_to_later _ _ N).
    cbn [app response_to]. rewrite Hc.
    destruct e; try reflexivity. now elim (Nr bufsize data). }
  assert (G : forall w buf rs r,
             phase (Some r) false false
               (mkProc w buf rs
                  (((((trace p ++ [EvPrint ("→ " ++ cmd)]) ++ [EvSend (cmd ++ crlf)])
                     ++ [EvSleep 300]) ++ [EvRecv 8192 r])
                   ++ [EvPrint ("← " ++ r)]))).
  { intros w buf rs r. unfold phase. cbn [trace]. repeat split.
    - rewrite <- !List.app_assoc. rewrite List.app_assoc.
      rewrite (response_to_later _ _ N).
      cbn [app response_to]. rewrite Hc. reflexivity.
    - rewrite !said_snoc, S1, Hs1. reflexivity.
    - rewrite !said_snoc, S2, Hs2. reflexivity. }
  unfold TestImapE2e.send_command, bind, print, sleep, log, recv, sendall, ret.
  cbn [fst snd trace env inbuf reactions].
  destruct (reactions p) as [|[b|] rs]; cbn [fst snd trace env inbuf reactions].
  - destruct (inbuf p); [apply U; discriminate |].
    destruct (utf8 _); [apply G | apply U; discriminate].
  - destruct (inbuf p ++ b)%string; [apply U; discriminate |].
    destruct (utf8 _); [apply G | apply U; discriminate].
  - left. exists None, false, false. split; [| now split].
    apply phase_snoc; [now split | exact H].
Qed.

(** A statement that keeps every phase keeps a settled run settled. *)
Lemma settled_keep {A} (m : M A) :
  (forall o b1 b2,
     hoare (phase o b1 b2) m (fun _ => phase o b1 b2) (phase o b1 b2)) ->
  hoare settled m (fun _ => concluded) concluded.
Proof.
  intros H p [o [b1 [b2 [Hp Hc]]]]. specialize (H o b1 b2 p Hp).
  destruct (m p) as [[a|e|] p']; left; exists o, b1, b2; split; assumption.
Qed.

Lemma settle o b1 b2 (p : proc) :
  consistent o b1 b2 -> phase o b1 b2 p -> settled p.
Proof. intros Hc Hp. exists o, b1, b2. now split. Qed.

Lemma settled_start (p : proc) : phase None false false p -> settled p.
Proof. apply settle. now split. Qed.

(** Every run of test-imap-e2e.py ends concluded. *)
Lemma e2e_concluded :
  hoare (phase None false false) TestImapE2e.test_imap_read
        (fun _ => concluded) concluded.
Proof.
  unfold TestImapE2e.test_imap_read. hsteps.
  hmid (fun _ : unit => settled).
  - match goal with
    | |- hoare _ (match ?found with _ => _ end) _ _ => destruct found as [group1|]
    end.
    + hstep. hstep. hstep.
      eapply hoare_bind; [apply phase_fetch; reflexivity |].
      intros r. cbn beta.
      destruct (contains "E2E Test Email" r) eqn:C1.
      * eapply hoare_bind; [apply phase_print_success | intros ?].
        hstep. hstep.
        destruct (contains "full stack is working" r) eqn:C2.
        -- eapply hoare_post; [apply phase_print_confirmed |].
           intros ? p H. apply (settle _ _ _ p) in H; [exact H |].
           cbn. now rewrite C1, C2.
        -- apply hoare_ret. intros p H. apply (settle _ _ _ p) in H; [exact H |].
           cbn. now rewrite C1, C2.
      * eapply hoare_post; [solve [eauto with hoare] |].
        intros ? p H. apply (settle _ _ _ p) in H; [exact H |].
        cbn. now rewrite C1.
    + apply hoare_ret. apply settled_start.
  - apply settled_keep. intros o b1 b2. hsteps. hdone.
Qed.

Lemma run_concluded (w : world) (rs : list reaction) :
  concluded (snd (run TestImapE2e.test_imap_read w rs)).
Proof.
  assert (H0 : phase None false false (boot w rs)) by (repeat split).
  pose proof (hoare_run _ _ _ _ w rs e2e_concluded H0) as H.
  destruct (fst (run TestImapE2e.test_imap_read w rs)); exact H.
Qed.

Lemma contains_skip (needle a b : string) :
  contains needle b = true -> contains needle (a ++ b) = true.
Proof.
  rewrite !contains_iff. intros [x [y ->]]. exists (a ++ x), y.
  now rewrite append_assoc.
Qed.

(** The message of send-smtp-raw.py carries its Subject and the marker. *)
Lemma email_content_carries (timestamp date : string) :
  contains (SendSmtpRaw.subject timestamp)
           (SendSmtpRaw.email_content timestamp date) = true /\
  contains "full stack is working"
           (SendSmtpRaw.email_content timestamp date) = true.
Proof.
  unfold SendSmtpRaw.email_content. split.
  - do 5 apply contains_skip. apply contains_of_startswith, startswith_app.
  - do 9 apply contains_skip. vm_compute. reflexivity.
Qed.

(** The end of a run of test-imap-e2e.py against a peer that talks. *)
Ltac at_end_e2e :=
  cbn [print log bind];
  match goal with |- ?F _ => subst F end;
  cbn beta; cbn [fst snd trace app];
  intros r R;
  first [ discriminate R | repeat split; reflexivity ].

(** Against a peer that talks, once test-imap-e2e.py has read a response
    to its FETCH it goes on to LOGOUT, closes the socket and returns,
    whatever that response holds. *)
Lemma e2e_goes_on (w : world) (rs : list reaction) :
  talks 4 w rs = true ->
  forall r,
    response_to "A003 FETCH" (trace (snd (run TestImapE2e.test_imap_read w rs)))
      = Some r ->
    fst (run TestImapE2e.test_imap_read w rs) = Val tt /\
    last (sent_lines (trace (snd (run TestImapE2e.test_imap_read w rs)))) ""
      = logout_line /\
    closed (trace (snd (run TestImapE2e.test_imap_read w rs))) = true.
Proof.
  intros H. hear H. about_run. unfold TestImapE2e.test_imap_read.
  forth.
  destruct (TestImapE2e.search_exists _ _) as [group1|].
  - step. unfold bind at 1, TestImapE2e.int_of_group at 1. cbn [env].
    match goal with
    | |- context [if ?c then (Err ValueError, _) else _] => destruct c
    end.
    + at_end_e2e.
    + forth.
      match goal with
      | |- context [contains "E2E Test Email" ?x] =>
          destruct (contains "E2E Test Email" x);
          [destruct (contains "full stack is working" x) |]
      end; forth; at_end_e2e.
  - forth. at_end_e2e.
Qed.

(** C1, as stated, fails: the message was submitted with the Subject
    "E2E Test Email - 2024-01-01 00:00:00"; the FETCH returns an older
    message, with another Subject and without the body marker, and
    test-imap-e2e.py prints its success verdict and exits with status 0. *)
Lemma C1_counterexample :
  said success_line
       (trace (snd (run TestImapE2e.test_imap_read imap_world stale_inbox))) = true /\
  response_to "A003 FETCH"
       (trace (snd (run TestImapE2e.test_imap_read imap_world stale_inbox)))
    = Some stale_fetch /\
  contains (SendSmtpRaw.subject "2024-01-01 00:00:00") stale_fetch = false /\
  contains "full stack is working" stale_fetch = false /\
  exit_status (run TestImapE2e.test_imap_read imap_world stale_inbox) = Some 0.
Proof. repeat split; vm_compute; reflexivity. Qed.

(** C1, amended: the message submitted by send-smtp-raw.py carries the
    Subject "E2E Test Email - <timestamp>" and the body marker.  The
    retrieval scenario (test-imap-e2e.py) prints its success verdict exactly
    when the response read for the FETCH command contains the fixed text
    "E2E Test Email", the beginning of every such Subject (so a response
    with the exact submitted Subject is reported as success), and its
    confirmation exactly when that response contains the marker
    "full stack is working" as well; this holds on every run, whatever the
    server does.  The scenario asserts nothing: against a server that
    accepts the connection, greets, and answers each command with some
    ASCII text, once a response to the FETCH has been read the script goes
    on to LOGOUT, closes the socket and returns normally, whatever that
    response holds. *)
Theorem C1_round_trip_check (w : world) (rs : list reaction)
    (timestamp date : string) :
  (contains (SendSmtpRaw.subject timestamp)
            (SendSmtpRaw.email_content timestamp date) = true /\
   contains "full stack is working"
            (SendSmtpRaw.email_content timestamp date) = true) /\
  (said success_line (trace (snd (run TestImapE2e.test_imap_read w rs))) = true <->
   exists r,
     response_to "A003 FETCH" (trace (snd (run TestImapE2e.test_imap_read w rs)))
       = Some r /\
     contains "E2E Test Email" r = true) /\
  (said confirmed_line (trace (snd (run TestImapE2e.test_imap_read w rs))) = true <->
   exists r,
     response_to "A003 FETCH" (trace (snd (run TestImapE2e.test_imap_read w rs)))
       = Some r /\
     contains "E2E Test Email" r = true /\
     contains "full stack is working" r = true) /\
  (forall r, contains (SendSmtpRaw.subject timestamp) r = true ->
             contains "E2E Test Email" r = true) /\
  (talks 4 w rs = true ->
   forall r,
     response_to "A003 FETCH" (trace (snd (run TestImapE2e.test_imap_read w rs)))
       = Some r ->
     fst (run TestImapE2e.test_imap_read w rs) = Val tt /\
     last (sent_lines (trace (snd (run TestImapE2e.test_imap_read w rs)))) ""
       = logout_line /\
     closed (trace (snd (run TestImapE2e.test_imap_read w rs))) = true).
Proof.
  split; [apply email_content_carries |].
  assert (T : forall r', contains (SendSmtpRaw.subject timestamp) r' = true ->
                         contains "E2E Test Email" r' = true).
  { intros r'. apply contains_trans. reflexivity. }
  destruct (run_concluded w rs) as [[o [b1 [b2 [[H1 [H2 H3]] Hc]]]] | [U1 [U2 U3]]].
  - rewrite H2, H3. destruct o as [r|]; cbn [consistent] in Hc.
    + destruct Hc as [-> ->]. rewrite H1. split; [| split; [| split]].
      * split; [intros C; now exists r | intros [r' [Hr C]]; congruence].
      * rewrite andb_true_iff. split.
        -- intros [C1 C2]. now exists r.
        -- intros [r' [Hr [C1 C2]]]. inversion Hr; subst. now split.
      * exact T.
      * intros Hk r0 _. exact (e2e_goes_on w rs Hk r H1).
    + destruct Hc as [-> ->].
      pose proof (response_to_later _ [] H1) as N. rewrite app_nil_r in N.
      rewrite N. cbn [response_to]. split; [| split; [| split]].
      * split; [discriminate | intros [r [Hr _]]; discriminate].
      * split; [discriminate | intros [r [Hr _]]; discriminate].
      * exact T.
      * intros _ r Hr. discriminate Hr.
  - rewrite U1, U2, U3. split; [| split; [| split]].
    + split; [discriminate | intros [r [Hr _]]; discriminate].
    + split; [discriminate | intros [r [Hr _]]; discriminate].
    + exact T.
    + intros _ r Hr. discriminate Hr.
Qed.

(** The amended C1 on a run in which the FETCH is sent and answered. *)
Lemma C1_round_trip_check_witness :
  fst (run TestImapE2e.test_imap_read imap_world stale_inbox) = Val tt /\
  last (sent_lines (trace (snd (run TestImapE2e.test_imap_read imap_world stale_inbox))))
       "" = logout_line /\
  closed (trace (snd (run TestImapE2e.test_imap_read imap_world stale_inbox))) = true.
Proof.
  apply (C1_round_trip_check imap_world stale_inbox "2024-01-01 00:00:00" "")
    with (r := stale_fetch).
  - reflexivity.
  - vm_compute. reflexivity.
Defined.

End RoundTripFacts.

(* ================================================================= *)
(** ** When a socket call raises *)

Module FailureFacts.
Import PyStr PyStrFacts Spec Logic HoareFacts TraceFacts Samples Outcomes.
Import VerdictClaims.

#[export] Hint Extern 1 (always _) => exact I : hoare.

Lemma closed_snoc (t : list event) (e : event) :
  closed (t ++ [e]) = closed t || closed [e].
Proof. unfold closed. now rewrite existsb_app. Qed.

Lemma unclosed_log e E :
  closed [e] = false -> hoare unclosed (log e) (fun _ => unclosed) E.
Proof.
  intros C p H. unfold unclosed in *. cbn [log fst snd trace].
  now rewrite closed_snoc, H, C.
Qed.

Lemma unclosed_print l E : hoare unclosed (print l) (fun _ => unclosed) E.
Proof. now apply unclosed_log. Qed.

Lemma unclosed_sleep n E : hoare unclosed (sleep n) (fun _ => unclosed) E.
Proof. now apply unclosed_log. Qed.

Lemma unclosed_recv n E :
  leads unclosed E -> hoare unclosed (recv n) (fun _ => unclosed) E.
Proof.
  intros HE p H. unfold recv.
  assert (K : forall e w buf rs, closed [e] = false ->
                unclosed (mkProc w buf rs (trace p ++ [e]))).
  { intros e w buf rs C. unfold unclosed in *. cbn [trace].
    now rewrite closed_snoc, H, C. }
  destruct (inbuf p); [now apply HE, K |].
  destruct (utf8 _); [now apply K | now apply HE, K].
Qed.

Lemma unclosed_connect h n E :
  leads unclosed E -> hoare unclosed (connect h n) (fun _ => unclosed) E.
Proof.
  intros HE p H. unfold connect. destruct (accepts (env p)); [| now apply HE].
  unfold unclosed in *. cbn [trace]. rewrite closed_snoc, H. reflexivity.
Qed.

Lemma unclosed_sendall d E :
  leads unclosed E -> hoare unclosed (sendall d) (fun _ => unclosed) E.
Proof.
  intros HE p H. unfold sendall.
  destruct (reactions p) as [|[b|] rs];
    try (unfold unclosed in *; cbn [trace]; rewrite closed_snoc, H; reflexivity).
  apply HE. exact H.
Qed.

(** After [sock.close()] nothing is asserted any more. *)
Lemma unclosed_close E : hoare unclosed close (fun _ => always) E.
Proof. intros p H. exact I. Qed.

#[export] Hint Resolve unclosed_print unclosed_sleep unclosed_recv unclosed_connect
  unclosed_sendall unclosed_close : hoare.

Lemma unclosed_send_full c E :
  leads unclosed E ->
  hoare unclosed (TestImapFull.send_command c) (fun _ => unclosed) E.
Proof. intros HE. unfold TestImapFull.send_command. hsteps. hdone. Qed.

Lemma unclosed_send_e2e c E :
  leads unclosed E ->
  hoare unclosed (TestImapE2e.send_command c) (fun _ => unclosed) E.
Proof. intros HE. unfold TestImapE2e.send_command. hsteps. hdone. Qed.

Lemma unclosed_send_all c E :
  leads unclosed E ->
  hoare unclosed (TestImapAll.send_command c) (fun _ => unclosed) E.
Proof. intros HE. unfold TestImapAll.send_command. hsteps. hdone. Qed.

Lemma unclosed_send_basic c E :
  leads unclosed E ->
  hoare unclosed (TestImap.send_command c) (fun _ => unclosed) E.
Proof. intros HE. unfold TestImap.send_command. hsteps. hdone. Qed.

Lemma unclosed_send_smtp c E :
  leads unclosed E ->
  hoare unclosed (SendSmtpRaw.send_command c) (fun _ => unclosed) E.
Proof. intros HE. unfold SendSmtpRaw.send_command. hsteps. hdone. Qed.

#[export] Hint Resolve unclosed_send_full unclosed_send_e2e unclosed_send_all
  unclosed_send_basic unclosed_send_smtp : hoare.

Lemma full_raises_unclosed :
  hoare unclosed TestImapFull.test_complete_flow (fun _ => always) unclosed.
Proof. unfold TestImapFull.test_complete_flow. hsteps; hdone. Qed.

Lemma basic_raises_unclosed :
  hoare unclosed TestImap.test_imap (fun _ => always) unclosed.
Proof. unfold TestImap.test_imap. hsteps; hdone. Qed.

Lemma all_raises_unclosed :
  hoare unclosed TestImapAll.test_imap_all (fun _ => always) unclosed.
Proof.
  unfold TestImapAll.test_imap_all. hsteps.
  hmid (fun _ : unit => unclosed).
  - destruct (_ && _); hsteps; hdone.
  - hsteps; hdone.
Qed.

Lemma e2e_raises_unclosed :
  hoare unclosed TestImapE2e.test_imap_read (fun _ => always) unclosed.
Proof.
  unfold TestImapE2e.test_imap_read. hsteps.
  hmid (fun _ : unit => unclosed).
  - match goal with
    | |- hoare _ (match ?found with _ => _ end) _ _ => destruct found
    end; [hsteps; hdone | hdone].
  - hsteps; hdone.
Qed.

Lemma smtp_raises_unclosed (timestamp date : string) :
  hoare unclosed (SendSmtpRaw.send_email timestamp date) (fun _ => always) unclosed.
Proof. unfold SendSmtpRaw.send_email. hsteps; hdone. Qed.

Lemma unreturned_unclosed {A} (m : M A) (w : world) (rs : list reaction) :
  hoare unclosed m (fun _ => always) unclosed ->
  (forall a, fst (run m w rs) <> Val a) ->
  closed (trace (snd (run m w rs))) = false /\
  exit_status (run m w rs) <> Some 0.
Proof.
  intros H R. pose proof (hoare_run _ _ _ _ w rs H eq_refl) as G.
  unfold exit_status.
  destruct (fst (run m w rs)) as [a|e|]; [now elim (R a) | |];
    (split; [exact G | discriminate]).
Qed.

(** No raw-socket script closes its socket when it does not run to its
    end: when a socket call raises (there is no try or finally) or a read
    waits for ever, the socket has not been closed, and the process does
    not exit with status 0. *)
Theorem unfinished_run_leaves_socket_open (w : world) (rs : list reaction) :
  (forall s : imap_script,
     fst (run (program s) w rs) <> Val tt ->
     closed (trace (snd (run (program s) w rs))) = false /\
     exit_status (run (program s) w rs) <> Some 0) /\
  (forall timestamp date,
     fst (run (SendSmtpRaw.send_email timestamp date) w rs) <> Val tt ->
     closed (trace (snd (run (SendSmtpRaw.send_email timestamp date) w rs))) = false /\
     exit_status (run (SendSmtpRaw.send_email timestamp date) w rs) <> Some 0).
Proof.
  split.
  - intros s R. apply unreturned_unclosed; [| now intros []].
    destruct s; [ apply full_raises_unclosed | apply e2e_raises_unclosed
                | apply all_raises_unclosed | apply basic_raises_unclosed ].
  - intros timestamp date R.
    apply unreturned_unclosed; [apply smtp_raises_unclosed | now intros []].
Qed.

(** The connection breaks under the second command of test-imap-e2e.py. *)
Lemma unfinished_run_leaves_socket_open_witness :
  closed (trace (snd (run (program E2e) imap_world
                        [Reply ("A001 OK LOGIN completed" ++ crlf); Drop]))) = false /\
  exit_status (run (program E2e) imap_world
                 [Reply ("A001 OK LOGIN completed" ++ crlf); Drop]) <> Some 0.
Proof.
  apply (proj1 (unfinished_run_leaves_socket_open imap_world
                  [Reply ("A001 OK LOGIN completed" ++ crlf); Drop]) E2e).
  vm_compute. discriminate.
Defined.

End FailureFacts.

(* ================================================================= *)
(** ** A refused connection *)

Module RefusalFacts.
Import PyStr PyStrFacts Spec Logic HoareFacts Samples Outcomes.

(** Every raw-socket script begins: banner, then connect. *)
Lemma refused_at_connect {A} (l h : string) (n : nat) (k : M A) (p : proc) :
  accepts (env p) = false ->
  (print l;; connect h n;; k) p = (Err ConnectionRefusedError, logged (EvPrint l) p).
Proof.
  intros H. unfold bind, print, log, connect. cbn [env]. rewrite H. reflexivity.
Qed.

Lemma refused_run {A} (l h : string) (n : nat) (k : M A) (w : world)
    (rs : list reaction) :
  accepts w = false ->
  run (print l;; connect h n;; k) w rs
    = (Err ConnectionRefusedError, logged (EvPrint l) (boot w rs)).
Proof. intros H. unfold run. now apply refused_at_connect. Qed.

(** When the server refuses the connection, every raw-socket script raises
    at its connect: nothing has been sent or read, no connection was opened,
    only the banner was printed, and the process exits with status 1. *)
Theorem refused_connection_sends_nothing (w : world) (rs : list reaction)
    (timestamp date : string) (m : M unit) :
  accepts w = false ->
  In m [program Full; program E2e; program All; program Basic;
        SendSmtpRaw.send_email timestamp date] ->
  fst (run m w rs) = Err ConnectionRefusedError /\
  sent_lines (trace (snd (run m w rs))) = [] /\
  reads (trace (snd (run m w rs))) = [] /\
  opened (trace (snd (run m w rs))) = false /\
  List.length (printed (trace (snd (run m w rs)))) = 1 /\
  exit_status (run m w rs) = Some 1.
Proof.
  intros H Hm. cbn [In] in Hm.
  assert (R : exists l, run m w rs
                = (Err ConnectionRefusedError, logged (EvPrint l) (boot w rs))).
  { destruct Hm as [<- | [<- | [<- | [<- | [<- | []]]]]]; eexists;
      apply refused_run; exact H. }
  destruct R as [l R]. unfold exit_status. rewrite R. repeat split.
Qed.

(** The refusal, for test-imap.py. *)
Lemma refused_connection_sends_nothing_witness :
  sent_lines (trace (snd (run TestImap.test_imap
                            (mkWorld false "" (fun _ => None) (fun _ => Absent) cpython) [])))
    = [].
Proof.
  apply (refused_connection_sends_nothing
           (mkWorld false "" (fun _ => None) (fun _ => Absent) cpython) [] "" ""
           TestImap.test_imap).
  - reflexivity.
  - cbn. tauto.
Defined.

End RefusalFacts.

(* ================================================================= *)
(** ** Scripts that look at no reply *)

Module CompletionFacts.
Import PyStr PyStrFacts Spec Logic HoareFacts TraceFacts Samples.
Import Outcomes Reports RunFacts SessionClaims.

(** The end of a run, when something of its trace is to be exhibited. *)
Ltac at_end_with tac :=
  cbn [print log];
  match goal with |- ?F _ => subst F end;
  cbn beta; cbn [fst snd trace app];
  tac.

(** test-imap-all.py checks nothing that could stop it: against a server
    that accepts the connection, greets, and answers each command with
    some ASCII text, whatever that text says, the script sends its four
    commands, closes the socket, returns normally and the process exits
    with status 0.  What it reports rests on the one read that followed
    the FETCH: the success lines with the approximate count when that text
    contains both "E2E Test Email" and "full stack is working", and
    otherwise the warning with the first 500 characters of the text. *)
Theorem all_run_unchecked (w : world) (rs : list reaction) :
  talks 4 w rs = true ->
  fst (run TestImapAll.test_imap_all w rs) = Val tt /\
  sent_lines (trace (snd (run TestImapAll.test_imap_all w rs))) = all_lines /\
  closed (trace (snd (run TestImapAll.test_imap_all w rs))) = true /\
  exit_status (run TestImapAll.test_imap_all w rs) = Some 0 /\
  exists r pre,
    response_to "A003 FETCH" (trace (snd (run TestImapAll.test_imap_all w rs)))
      = Some r /\
    printed (trace (snd (run TestImapAll.test_imap_all w rs)))
      = (pre ++ all_report r ++ all_closing)%list.
Proof.
  intros H. hear H. about_run. unfold TestImapAll.test_imap_all. forth.
  match goal with
  | |- context [contains "E2E Test Email" ?x] =>
      pose proof (eq_refl (all_report x)) as R; unfold all_report at 2 in R;
      destruct (contains "E2E Test Email" x && contains "full stack is working" x)
  end; forth;
    at_end_with ltac:(repeat (split; [reflexivity |]));
    match goal with
    | R : all_report ?x = _ |- _ =>
        exists x; eexists; split; [reflexivity |]; rewrite R
    end;
    cbn [printed flat_map app all_closing];
    match goal with
    | |- ?L = _ => 
        let n := eval cbv in (List.length L - 6) in
        instantiate (1 := firstn n L)
    end; reflexivity.
Qed.

(** A server that answers every command of test-imap-all.py with NO. *)
Lemma all_run_unchecked_witness :
  closed (trace (snd (run TestImapAll.test_imap_all imap_world
                        [Reply login_refused; Reply login_refused;
                         Reply login_refused; Reply login_refused]))) = true /\
  exit_status (run TestImapAll.test_imap_all imap_world
                 [Reply login_refused; Reply login_refused;
                  Reply login_refused; Reply login_refused]) = Some 0.
Proof.
  split;
    apply (all_run_unchecked imap_world
             [Reply login_refused; Reply login_refused;
              Reply login_refused; Reply login_refused]);
    reflexivity.
Defined.

(** send-smtp-raw.py looks at no reply: against a server that accepts the
    connection, greets, and answers each of the six things it is sent with
    some ASCII text, whatever that text says (a rejection of every command
    included), the script sends EHLO, MAIL FROM, RCPT TO, DATA, the message
    and QUIT in this order, closes the socket, prints that the email was
    sent, returns normally and the process exits with status 0. *)
Theorem smtp_submission_unchecked (timestamp date : string) (w : world)
    (rs : list reaction) :
  talks 6 w rs = true ->
  fst (run (SendSmtpRaw.send_email timestamp date) w rs) = Val tt /\
  sent_lines (trace (snd (run (SendSmtpRaw.send_email timestamp date) w rs)))
    = smtp_lines timestamp date /\
  closed (trace (snd (run (SendSmtpRaw.send_email timestamp date) w rs))) = true /\
  last (printed (trace (snd (run (SendSmtpRaw.send_email timestamp date) w rs)))) ""
    = sent_line /\
  exit_status (run (SendSmtpRaw.send_email timestamp date) w rs) = Some 0.
Proof.
  intros H. hear H. unfold SendSmtpRaw.send_email, smtp_lines.
  generalize (SendSmtpRaw.email_content timestamp date). intros message.
  about_run. forth. at_end.
Qed.

(** A server that rejects everything. *)
Lemma smtp_submission_unchecked_witness :
  last (printed
          (trace (snd (run (SendSmtpRaw.send_email "2024-01-01 00:00:00"
                              "Mon, 01 Jan 2024 00:00:00 +0000")
                           imap_world
                           [Reply ("550 rejected" ++ crlf); Reply ("550 rejected" ++ crlf);
                            Reply ("550 rejected" ++ crlf); Reply ("550 rejected" ++ crlf);
                            Reply ("550 rejected" ++ crlf); Reply ("550 rejected" ++ crlf)]))))
       "" = sent_line.
Proof.
  apply (smtp_submission_unchecked "2024-01-01 00:00:00"
           "Mon, 01 Jan 2024 00:00:00 +0000" imap_world
           [Reply ("550 rejected" ++ crlf); Reply ("550 rejected" ++ crlf);
            Reply ("550 rejected" ++ crlf); Reply ("550 rejected" ++ crlf);
            Reply ("550 rejected" ++ crlf); Reply ("550 rejected" ++ crlf)]).
  reflexivity.
Defined.

End CompletionFacts.

(* ================================================================= *)
(** ** Successive commands on one socket *)

Module SequenceFacts.
Import PyStr PyStrFacts Spec Logic Samples ExchangeClaims Outcomes Reports RunFacts.










End SequenceFacts.

(* ================================================================= *)
(** ** The SMTP session and the mailbox of test_spf_dkim.py *)

Module SessionScopeFacts.
Import PyStr PyStrFacts Spec Logic Samples InspectorFacts Outcomes Reports.
Import TestSpfDkim.






(** Among the entries, the first of the most recent ones is the latest. *)
Lemma max_ctime_first (best : entry) (xs : list entry) :
  exists pre post,
    best :: xs = (pre ++ max_ctime best xs :: post)%list /\
    Forall (fun x => (ctime x < ctime (max_ctime best xs))%N) pre /\
    Forall (fun x => (ctime x <= ctime (max_ctime best xs))%N) post.
Proof.
  revert best. induction xs as [|y ys IH]; intros best.
  - exists [], []. repeat split; constructor.
  - cbn [max_ctime]. destruct (ctime best <? ctime y)%N eqn:C.
    + destruct (IH y) as [pre [post [E [Hpre Hpost]]]].
      exists (best :: pre), post. repeat split.
      * cbn. now rewrite <- E.
      * constructor; [| exact Hpre].
        apply N.ltb_lt in C. pose proof (max_ctime_ge_best y ys). lia.
      * exact Hpost.
    + apply N.ltb_ge in C.
      destruct (IH best) as [pre [post [E [Hpre Hpost]]]].
      destruct pre as [|b pre]; cbn [app] in E; injection E as E1 E2.
      * exists [], (y :: ys). rewrite <- E1 in *. subst post.
        repeat split; [constructor |]. constructor; assumption.
      * subst b. exists (best :: y :: pre), post. repeat split.
        -- cbn [app]. now rewrite <- E2.
        -- inversion Hpre as [|? ? Hb Hrest]; subst.
           constructor; [exact Hb |]. constructor; [lia | exact Hrest].
        -- exact Hpost.
Qed.

Lemma first_newest_unique (pre post pre' post' : list entry) (e m : entry) :
  (pre ++ e :: post = pre' ++ m :: post')%list ->
  Forall (fun x => (ctime x < ctime e)%N) pre ->
  Forall (fun x => (ctime x <= ctime e)%N) post ->
  Forall (fun x => (ctime x < ctime m)%N) pre' ->
  Forall (fun x => (ctime x <= ctime m)%N) post' ->
  e = m.
Proof.
  revert pre'. induction pre as [|a pre IH]; intros pre' E Hpre Hpost Hpre' Hpost'.
  - destruct pre' as [|x pre']; cbn [app] in E; injection E as E1 E2; [exact E1 |].
    subst x post. inversion Hpre' as [|? ? Hx _]; subst.
    rewrite Forall_forall in Hpost. specialize (Hpost m (in_elt m pre' post')). lia.
  - destruct pre' as [|x pre']; cbn [app] in E; injection E as E1 E2.
    + subst a post'. inversion Hpre as [|? ? Ha _]; subst.
      rewrite Forall_forall in Hpost'. specialize (Hpost' e (in_elt e pre post)). lia.
    + inversion Hpre; inversion Hpre'; subst. now apply (IH pre').
Qed.

(** The entry [latestMessage] reads, told from the listing alone: the first
    listed entry whose creation time no listed entry exceeds (on equal
    times, the one listed first).  It returns the text of that entry, and
    raises when that entry cannot be read, whatever the other entries are. *)
Theorem latest_is_first_of_newest (p : proc) (dir : string)
    (pre post : list entry) (e : entry) :
  (dir = primary_root /\ fs (env p) primary_root <> Absent) \/
  (dir = alternate_root /\ fs (env p) primary_root = Absent) ->
  listing (env p) dir = (pre ++ e :: post)%list ->
  Forall (fun x => (ctime x < ctime e)%N) pre ->
  Forall (fun x => (ctime x <= ctime e)%N) post ->
  fst (latestMessage p) = match text e with
                          | Some content => Val (Some content)
                          | None => Err ReadError
                          end.
Proof.
  intros D L Hpre Hpost. rewrite (latestMessage_in p dir D).
  destruct (fs (env p) dir) eqn:F.
  - unfold listing in L. rewrite F in L. now destruct pre.
  - unfold listing in L. rewrite F in L. now destruct pre.
  - destruct (listing (env p) dir) as [|b bs] eqn:Lb; [now destruct pre |].
    destruct (max_ctime_first b bs) as [pre' [post' [E [Hpre' Hpost']]]].
    rewrite L in E.
    now rewrite <- (first_newest_unique _ _ _ _ _ _ E Hpre Hpost Hpre' Hpost').
Qed.

(** Two messages delivered in the same second: the one listed first is read. *)
Lemma latest_is_first_of_newest_witness :
  fst (latestMessage
         (boot (mkWorld true "" (fun _ => None)
                  (fun path => if String.eqb path primary_root
                               then Dir [mkEntry "a" 5 (Some "first");
                                         mkEntry "b" 5 (Some "second")]
                               else Absent) cpython) []))
    = Val (Some "first").
Proof.
  apply (latest_is_first_of_newest _ primary_root [] [mkEntry "b" 5 (Some "second")]
           (mkEntry "a" 5 (Some "first"))).
  - left. split; [reflexivity | discriminate].
  - reflexivity.
  - constructor.
  - constructor; [cbn; lia | constructor].
Defined.

End SessionScopeFacts.

(* ================================================================= *)
(** ** What goes on the wire after DATA (send-smtp-raw.py) *)

Module WireFacts.
Import PyStr PyStrFacts Spec Logic Samples Outcomes Reports.

(** A needle of one character is in [a ++ b] when it is in [a] or in [b]. *)
Lemma contains_char_app (c : ascii) (a b : string) :
  contains (String c "") (a ++ b) = contains (String c "") a || contains (String c "") b.
Proof.
  induction a as [|d a IH]; [reflexivity |].
  cbn [append contains]. rewrite IH.
  replace (startswith (String c "") (String d (a ++ b)))
    with (startswith (String c "") (String d a)).
  - now rewrite orb_assoc.
  - unfold startswith. cbn. destruct (ascii_dec c d); [| reflexivity].
    generalize (a ++ b). intros x. now destruct a, x.
Qed.

Lemma crlf_needs_cr (s : string) : contains cr s = false -> contains crlf s = false.
Proof.
  intros H. destruct (contains crlf s) eqn:C; [| reflexivity].
  rewrite <- H. symmetry. apply (contains_trans cr crlf s); [reflexivity | exact C].
Qed.

Lemma ends_app (a b suf : string) :
  (exists x, b = x ++ suf) -> exists x, a ++ b = x ++ suf.
Proof. intros [x ->]. exists (a ++ x). now rewrite append_assoc. Qed.

(** The message that send-smtp-raw.py sends after DATA is written with bare
    line feeds: when the two time stamps hold no carriage return, the
    message holds none, so neither CRLF nor the SMTP end-of-data mark
    CRLF . CRLF occurs in it; its last line is a dot between two line
    feeds. *)
Theorem message_has_bare_line_feeds (timestamp date : string) :
  contains cr timestamp = false -> contains cr date = false ->
  contains cr (SendSmtpRaw.email_content timestamp date) = false /\
  contains crlf (SendSmtpRaw.email_content timestamp date) = false /\
  contains (crlf ++ "." ++ crlf) (SendSmtpRaw.email_content timestamp date) = false /\
  exists body, SendSmtpRaw.email_content timestamp date = body ++ nl ++ "." ++ nl.
Proof.
  intros Ht Hd.
  assert (C : contains cr (SendSmtpRaw.email_content timestamp date) = false).
  { unfold SendSmtpRaw.email_content, SendSmtpRaw.subject, cr.
    rewrite !contains_char_app. fold cr. rewrite Ht, Hd. now vm_compute. }
  split; [exact C | split; [now apply crlf_needs_cr | split]].
  - destruct (contains (crlf ++ "." ++ crlf) _) eqn:F; [| reflexivity].
    rewrite <- C. symmetry.
    apply (contains_trans cr (crlf ++ "." ++ crlf) _); [reflexivity | exact F].
  - unfold SendSmtpRaw.email_content.
    repeat lazymatch goal with
           | |- exists x, _ ++ _ ++ _ ++ _ = _ => apply ends_app
           end.
    now exists "".
Qed.

(** With the time stamps of the specification's scenario. *)
Lemma message_has_bare_line_feeds_witness :
  contains (crlf ++ "." ++ crlf)
    (SendSmtpRaw.email_content "2024-01-01 00:00:00"
       "Mon, 01 Jan 2024 00:00:00 +0000") = false.
Proof.
  apply (message_has_bare_line_feeds "2024-01-01 00:00:00"
           "Mon, 01 Jan 2024 00:00:00 +0000"); reflexivity.
Defined.

End WireFacts.

(* ================================================================= *)
(** ** The message test-imap-e2e.py asks for *)

Module FetchFacts.
Import PyStr PyStrFacts Spec Logic Samples Outcomes Reports RunFacts.

(** The end of a run whose SELECT response is to be exhibited. *)
Ltac at_end_fetch S :=
  cbn [print log bind];
  match goal with |- ?F _ => subst F end;
  cbn beta; cbn [fst snd trace app env python];
  match type of S with
  | TestImapE2e.search_exists _ ?r = _ => exists r
  end;
  split; [reflexivity |]; rewrite S.

(** test-imap-e2e.py asks for the message that its SELECT response counts.
    Against a server that accepts the connection, greets, and answers each
    command with some ASCII text, the one read that follows A002 SELECT
    returns some text.  When that text holds no count the script sends no
    FETCH, goes on to LOGOUT, closes the socket and returns.  When the
    count found is too long for [int()] the script raises [ValueError]
    after the SELECT, the socket left open.  Otherwise it sends
    A003 FETCH n BODY[], n being the number the digits denote (0 included),
    then LOGOUT, closes the socket and returns. *)
Theorem fetch_follows_select (w : world) (rs : list reaction) :
  talks 4 w rs = true ->
  exists r,
    response_to "A002 SELECT" (trace (snd (run TestImapE2e.test_imap_read w rs)))
      = Some r /\
    match TestImapE2e.search_exists (python w) r with
    | None =>
        fst (run TestImapE2e.test_imap_read w rs) = Val tt /\
        sent_lines (trace (snd (run TestImapE2e.test_imap_read w rs)))
          = e2e_lines None /\
        closed (trace (snd (run TestImapE2e.test_imap_read w rs))) = true
    | Some ds =>
        if too_long (python w) ds
        then fst (run TestImapE2e.test_imap_read w rs) = Err ValueError /\
             sent_lines (trace (snd (run TestImapE2e.test_imap_read w rs)))
               = firstn 2 (e2e_lines None) /\
             closed (trace (snd (run TestImapE2e.test_imap_read w rs))) = false
        else fst (run TestImapE2e.test_imap_read w rs) = Val tt /\
             sent_lines (trace (snd (run TestImapE2e.test_imap_read w rs)))
               = e2e_lines (Some (group_value (python w) ds)) /\
             closed (trace (snd (run TestImapE2e.test_imap_read w rs))) = true
    end.
Proof.
  intros H. hear H. about_run. unfold TestImapE2e.test_imap_read.
  forth.
  destruct (TestImapE2e.search_exists _ _) as [group1|] eqn:S.
  - step. unfold bind at 1, TestImapE2e.int_of_group at 1. cbn [env python].
    fold (too_long (python w) group1). fold (group_value (python w) group1).
    destruct (too_long (python w) group1) eqn:T.
    + at_end_fetch S. rewrite T. repeat split; reflexivity.
    + forth.
      match goal with
      | |- context [contains "E2E Test Email" ?x] =>
          destruct (contains "E2E Test Email" x);
          [destruct (contains "full stack is working" x) |]
      end; forth; at_end_fetch S; rewrite T; repeat split; reflexivity.
  - forth. at_end_fetch S. repeat split; reflexivity.
Qed.

(** An empty mailbox: the script asks for message 0. *)
Lemma fetch_follows_select_witness :
  exists r,
    response_to "A002 SELECT"
      (trace (snd (run TestImapE2e.test_imap_read imap_world
                     [Reply ("A001 OK LOGIN completed" ++ crlf);
                      Reply ("* 0 EXISTS" ++ crlf ++ "A002 OK SELECT completed" ++ crlf);
                      Reply ("A003 BAD Invalid sequence set" ++ crlf);
                      Reply ("* BYE" ++ crlf)])))
      = Some r /\
    sent_lines
      (trace (snd (run TestImapE2e.test_imap_read imap_world
                     [Reply ("A001 OK LOGIN completed" ++ crlf);
                      Reply ("* 0 EXISTS" ++ crlf ++ "A002 OK SELECT completed" ++ crlf);
                      Reply ("A003 BAD Invalid sequence set" ++ crlf);
                      Reply ("* BYE" ++ crlf)])))
    = wire ["A001 LOGIN test@example.com password123"; "A002 SELECT INBOX";
            "A003 FETCH 0 BODY[]"; "A004 LOGOUT"].
Proof.
  destruct (fetch_follows_select imap_world
              [Reply ("A001 OK LOGIN completed" ++ crlf);
               Reply ("* 0 EXISTS" ++ crlf ++ "A002 OK SELECT completed" ++ crlf);
               Reply ("A003 BAD Invalid sequence set" ++ crlf);
               Reply ("* BYE" ++ crlf)] eq_refl)
    as [r [Hr H]].
  exists r. split; [exact Hr |].
  vm_compute in Hr. injection Hr as <-.
  vm_compute in H. destruct H as [_ [S _]]. vm_compute. exact S.
Defined.

End FetchFacts.

(* ================================================================= *)
(** ** send-test-email.py: what a failure leaves behind *)

Module SendTestEmailFacts.
Import PyStr SendTestEmail.

(** send-test-email.py never lets an exception out: whatever the server and
    [smtplib] do, [send_email] returns, True exactly when all four calls
    succeeded.  QUIT is sent on that path only, so a session whose EHLO or
    [sendmail] failed is never ended by the script.  The success line is
    printed before QUIT: when QUIT alone fails, the success line and the
    failure line are both printed and the function returns False. *)
Theorem send_email_contains_failures (srv : server) (timestamp : string) :
  exists b t,
    send_email srv timestamp [] = (inl b, t) /\
    b = works srv Connect && works srv Ehlo && works srv Sendmail && works srv Quit /\
    called Quit t = b /\
    shown delivered_line t = works srv Connect && works srv Ehlo && works srv Sendmail /\
    (b = false ->
     exists msg, shown (failed_line msg) t = true /\ In Stack t /\
                 In (Some msg) [srv Connect; srv Ehlo; srv Sendmail; srv Quit]).
Proof.
  unfold send_email, attempt, next, ask, works.
  destruct (srv Connect) as [m1|] eqn:C1; cbn.
  { eexists _, _. repeat split. intros _. exists m1. cbn.
    rewrite String.eqb_refl. tauto. }
  destruct (srv Ehlo) as [m2|] eqn:C2; cbn.
  { eexists _, _. repeat split. intros _. exists m2. cbn.
    rewrite String.eqb_refl. tauto. }
  destruct (srv Sendmail) as [m3|] eqn:C3; cbn.
  { eexists _, _. repeat split. intros _. exists m3. cbn.
    rewrite String.eqb_refl. tauto. }
  destruct (srv Quit) as [m4|] eqn:C4; cbn.
  { eexists _, _. repeat split. intros _. exists m4. cbn.
    rewrite String.eqb_refl. tauto. }
  eexists _, _. repeat split. discriminate.
Qed.

End SendTestEmailFacts.
